(** * Homie4 device base: a shallow embedding of [homie/device_base.py]

    The class [Device_Base] is embedded as a record [Device] together with
    one Rocq function per method.  A method is a computation over the
    device object that
      - mutates the object (explicit state passing),
      - calls the transport and the logger (a trace of [event]s),
      - may raise (an [outcome]); what was mutated and emitted before the
        exception stays, as it does in Python. *)

From Stdlib Require Import ZArith PrimFloat Ascii.
From stdpp Require Import base option strings list gmap pretty.

Local Open Scope Z_scope.

(** ** Python values that travel through the device *)

Inductive pyval :=
| PNone
| PBool (b : bool)
| PInt (z : Z)
| PFloat (f : float)
| PStr (s : string).

(** [str.join]: the separator between consecutive elements. *)
Fixpoint join (sep : string) (parts : list string) : string :=
  match parts with
  | [] => ""
  | [p] => p
  | p :: rest => p +:+ sep +:+ join sep rest
  end.

(** ** Exceptions, effects and the method monad *)

Inductive exn :=
| AssertionError
| KeyError (key : string)
| TypeError.

(** Handlers are function references: the device's own bound method
    [broadcast_handler], or a callable owned by a node. *)
Inductive handler :=
| broadcast_handler
| node_handler (ref : nat).

Inductive warning :=
| InvalidDeviceState (state : pyval)
| RetainedMessage (topic : string) (payload retain qos : pyval).

(** What the device does to its collaborators.  [logger.debug] calls are
    left out: the module sets its logger to level INFO. *)
Inductive event :=
| Publish (topic : string) (payload : pyval) (retain : bool) (qos : Z)
| Subscribe (topic : string) (qos : Z)
| Unsubscribe (topic : string)
| SetWill (topic : string) (payload : pyval) (retain : bool) (qos : Z)
| Call (h : handler) (topic : string) (payload : pyval)
| Warn (w : warning).

Inductive outcome (A : Type) :=
| Return (a : A)
| Raise (e : exn).
Arguments Return {A} a.
Arguments Raise {A} e.

(** ** Collaborators, specified at their interface *)

(** The transport client object returned by [connect_mqtt_client]. *)
Record Transport := {
  using_shared_mqtt_client : bool;
  mqtt_connected : bool;
  get_mac_ip_address : pyval * pyval;
}.

(** One [device.publish(topic, payload, retain, qos)] call made by a node. *)
Record publication := {
  pub_topic : string;
  pub_payload : pyval;
  pub_retain : bool;
  pub_qos : Z;
}.

(** A node: what its [publish_attributes(retain, qos)] publishes through
    the device, and the dict its [get_subscriptions()] returns, in
    iteration order. *)
Record Node := {
  node_publish_attributes : bool → Z → list publication;
  get_subscriptions : list (string * handler);
}.

(** The two clock reads of one call: [time.time()] and [datetime.now()]. *)
Record datetime := {
  year : Z; month : Z; day : Z; hour : Z; minute : Z; second : Z;
}.

Record Clock := {
  time_time : float;
  datetime_now : datetime;
}.

(** ** The device object *)

Record Device := {
  instance_number : Z;
  _mqtt_connected : bool;
  device_id : string;
  name : string;
  extensions : list string;
  _state : pyval;
  homie_settings : gmap string pyval;
  topic : string;
  retained : bool;
  qos : Z;
  nodes : list (string * Node);
  start_time : option float;
  nodes_published : bool;
  mqtt_client : Transport;
  mqtt_subscription_handlers : gmap string handler;
}.

(** Attribute assignments [self.x = v]. *)
Definition set__mqtt_connected (v : bool) (d : Device) : Device :=
  {| instance_number := instance_number d; _mqtt_connected := v;
     device_id := device_id d; name := name d; extensions := extensions d;
     _state := _state d; homie_settings := homie_settings d; topic := topic d;
     retained := retained d; qos := qos d; nodes := nodes d;
     start_time := start_time d; nodes_published := nodes_published d;
     mqtt_client := mqtt_client d;
     mqtt_subscription_handlers := mqtt_subscription_handlers d |}.

Definition set__state (v : pyval) (d : Device) : Device :=
  {| instance_number := instance_number d; _mqtt_connected := _mqtt_connected d;
     device_id := device_id d; name := name d; extensions := extensions d;
     _state := v; homie_settings := homie_settings d; topic := topic d;
     retained := retained d; qos := qos d; nodes := nodes d;
     start_time := start_time d; nodes_published := nodes_published d;
     mqtt_client := mqtt_client d;
     mqtt_subscription_handlers := mqtt_subscription_handlers d |}.

Definition set_start_time (v : option float) (d : Device) : Device :=
  {| instance_number := instance_number d; _mqtt_connected := _mqtt_connected d;
     device_id := device_id d; name := name d; extensions := extensions d;
     _state := _state d; homie_settings := homie_settings d; topic := topic d;
     retained := retained d; qos := qos d; nodes := nodes d;
     start_time := v; nodes_published := nodes_published d;
     mqtt_client := mqtt_client d;
     mqtt_subscription_handlers := mqtt_subscription_handlers d |}.

Definition set_nodes_published (v : bool) (d : Device) : Device :=
  {| instance_number := instance_number d; _mqtt_connected := _mqtt_connected d;
     device_id := device_id d; name := name d; extensions := extensions d;
     _state := _state d; homie_settings := homie_settings d; topic := topic d;
     retained := retained d; qos := qos d; nodes := nodes d;
     start_time := start_time d; nodes_published := v;
     mqtt_client := mqtt_client d;
     mqtt_subscription_handlers := mqtt_subscription_handlers d |}.

Definition set_mqtt_subscription_handlers (v : gmap string handler) (d : Device) : Device :=
  {| instance_number := instance_number d; _mqtt_connected := _mqtt_connected d;
     device_id := device_id d; name := name d; extensions := extensions d;
     _state := _state d; homie_settings := homie_settings d; topic := topic d;
     retained := retained d; qos := qos d; nodes := nodes d;
     start_time := start_time d; nodes_published := nodes_published d;
     mqtt_client := mqtt_client d;
     mqtt_subscription_handlers := v |}.

(** ** The method monad: state, trace and exceptions *)

Record result (A : Type) := Result {
  trace : list event;
  self : Device;
  out : outcome A;
}.
Arguments Result {A} trace self out.
Arguments trace {A} r.
Arguments self {A} r.
Arguments out {A} r.

Definition M (A : Type) : Type := Device → result A.

Definition ret {A} (a : A) : M A := λ d, Result [] d (Return a).

Definition bind {A B} (m : M A) (k : A → M B) : M B := λ d,
  match m d with
  | Result t1 d1 (Return a) =>
      match k a d1 with
      | Result t2 d2 o => Result (t1 ++ t2) d2 o
      end
  | Result t1 d1 (Raise e) => Result t1 d1 (Raise e)
  end.

Notation "x <- c1 ;;; c2" := (bind c1 (λ x, c2))
  (at level 100, c1 at next level, right associativity, only parsing).
Notation "c1 ;;; c2" := (bind c1 (λ _, c2))
  (at level 100, right associativity, only parsing).

Definition raise {A} (e : exn) : M A := λ d, Result [] d (Raise e).
Definition emit (e : event) : M unit := λ d, Result [e] d (Return tt).
Definition attr {A} (f : Device → A) : M A := λ d, Result [] d (Return (f d)).
Definition assign (f : Device → Device) : M unit := λ d, Result [] (f d) (Return tt).

(** [dict[key]] *)
Definition getitem {V} (m : gmap string V) (key : string) : M V :=
  match m !! key with
  | Some v => ret v
  | None => raise (KeyError key)
  end.

(** [for x in xs: body(x)] *)
Fixpoint for_each {A} (xs : list A) (body : A → M unit) : M unit :=
  match xs with
  | [] => ret tt
  | x :: rest => body x ;;; for_each rest body
  end.

(** ** Module constants *)

Definition DEVICE_STATES : list string :=
  ["init"; "ready"; "disconnected"; "sleeping"; "alert"; "lost"].

(** [homie.__version__] and [sys.platform], fixed when the module loads. *)
Record Env := {
  homie___version__ : pyval;
  sys_platform : pyval;
}.

Definition HOMIE_SETTINGS (env : Env) : list (string * pyval) :=
  [ ("version", PStr "4.0.0");
    ("topic", PStr "homie");
    ("fw_name", PStr "homie4");
    ("fw_version", homie___version__ env);
    ("update_interval", PInt 60);
    ("implementation", sys_platform env) ].

Definition EXTENSIONS : list string := ["stats"; "firmware"; "meta"].

(** Module-level mutable state: the instance counter and the shared timer
    (its interval and the devices whose [publish_uptime] it calls). *)
Record Repeating_Timer := {
  interval : pyval;
  callbacks : list Z;
}.

Record Globals := {
  instance_count : Z;
  repeating_timer : option Repeating_Timer;
}.

(** The class [Repeating_Timer] itself belongs to
    [homie.support.repeating_timer], not to this module.  It is taken as
    given: what its constructor makes of the interval it is passed, or the
    exception it raises, and what [add_callback] makes of a timer when it
    is passed the [publish_uptime] of a device, named by its instance
    number. *)
Record Timers := {
  new_timer : pyval → outcome Repeating_Timer;
  add_callback : Z → Repeating_Timer → outcome Repeating_Timer;
}.

(** ** Python builtins used by the methods *)

(** [x in xs] for a list of strings: only an equal string is a member. *)
Definition py_in (x : pyval) (xs : list string) : bool :=
  match x with
  | PStr s => bool_decide (s ∈ xs)
  | _ => false
  end.

(** [x is False] *)
Definition is_False (x : pyval) : bool :=
  match x with
  | PBool false => true
  | _ => false
  end.

(** [s.zfill(width)] for a string of digits. *)
Definition zfill (width : nat) (s : string) : string :=
  String.concat "" (replicate (width - String.length s) "0") +:+ s.

(** ["{:04d}".format(n)] *)
Definition format_04d (n : Z) : string :=
  if n <? 0 then "-" +:+ zfill 3 (pretty (- n)) else zfill 4 (pretty n).

(** [dt.strftime("%d/%m/%Y %H:%M:%S")] *)
Definition strftime (dt : datetime) : string :=
  zfill 2 (pretty (day dt)) +:+ "/" +:+ zfill 2 (pretty (month dt)) +:+ "/" +:+
  zfill 4 (pretty (year dt)) +:+ " " +:+ zfill 2 (pretty (hour dt)) +:+ ":" +:+
  zfill 2 (pretty (minute dt)) +:+ ":" +:+ zfill 2 (pretty (second dt)).

(** [time.time() - self.start_time]: a float minus [None] is a TypeError. *)
Definition uptime (now : float) (start : option float) : M pyval :=
  match start with
  | Some t0 => ret (PFloat (PrimFloat.sub now t0))
  | None => raise TypeError
  end.

(** ** Methods of [Device_Base] *)

Definition publish (topic : string) (payload : pyval) (retain : bool) (qos : Z) : M unit :=
  emit (Publish topic payload retain qos).

(** The [state] property setter.  An assignment [device.state = v] passes
    the value only, so [retain] and [qos] take their defaults. *)
Definition state_setter (state : pyval) (retain : bool) (qos : Z) : M unit :=
  if py_in state DEVICE_STATES then
    assign (set__state state) ;;;
    d <- attr id ;;;
    publish (join "/" [topic d; "$state"]) (_state d) retain qos
  else
    emit (Warn (InvalidDeviceState state)).

Definition assign_state (state : pyval) : M unit := state_setter state true 1.

Definition cleanup : M unit := assign_state (PStr "disconnected").

Definition generate_device_id (instance_number : Z) : string :=
  "device" +:+ format_04d instance_number.

Definition publish_statastics (clk : Clock) (retain : bool) (qos : Z) : M unit :=
  d <- attr id ;;;
  update_interval <- getitem (homie_settings d) "update_interval" ;;;
  publish (join "/" [topic d; "$stats/interval"]) update_interval retain qos ;;;
  up <- uptime (time_time clk) (start_time d) ;;;
  publish (join "/" [topic d; "$stats/uptime"]) up retain qos ;;;
  publish (join "/" [topic d; "$stats/lastupdate"])
          (PStr (strftime (datetime_now clk))) retain qos.

Definition publish_uptime (clk : Clock) (retain : bool) (qos : Z) : M unit :=
  d <- attr id ;;;
  up <- uptime (time_time clk) (start_time d) ;;;
  publish (join "/" [topic d; "$stats/uptime"]) up retain qos ;;;
  publish (join "/" [topic d; "$stats/lastupdate"])
          (PStr (strftime (datetime_now clk))) retain qos.

Definition publish_firmware (retain : bool) (qos : Z) : M unit :=
  d <- attr id ;;;
  let '(mac, ip) := get_mac_ip_address (mqtt_client d) in
  publish (join "/" [topic d; "$localip"]) ip retain qos ;;;
  publish (join "/" [topic d; "$mac"]) mac retain qos ;;;
  fw_name <- getitem (homie_settings d) "fw_name" ;;;
  publish (join "/" [topic d; "$fw/name"]) fw_name retain qos ;;;
  fw_version <- getitem (homie_settings d) "fw_version" ;;;
  publish (join "/" [topic d; "$fw/version"]) fw_version retain qos ;;;
  implementation <- getitem (homie_settings d) "implementation" ;;;
  publish (join "/" [topic d; "$implementation"]) implementation retain qos.

(** [extensions is not ''] compares with the empty string object, which
    is the one [join] returns when its result is empty. *)
Definition publish_extensions (clk : Clock) (retain : bool) (qos : Z) : M unit :=
  d <- attr id ;;;
  let exts := join "," (extensions d) in
  (if bool_decide (exts ≠ "")
   then publish (join "/" [topic d; "$extensions"]) (PStr exts) retain qos
   else ret tt) ;;;
  (if bool_decide ("stats" ∈ extensions d)
   then publish_statastics clk retain qos
   else ret tt) ;;;
  (if bool_decide ("firmware" ∈ extensions d)
   then publish_firmware retain qos
   else ret tt).

Definition publish_attributes (clk : Clock) (retain : bool) (qos : Z) : M unit :=
  d <- attr id ;;;
  version <- getitem (homie_settings d) "version" ;;;
  publish (join "/" [topic d; "$homie"]) version retain qos ;;;
  publish (join "/" [topic d; "$name"]) (PStr (name d)) retain qos ;;;
  implementation <- getitem (homie_settings d) "implementation" ;;;
  publish (join "/" [topic d; "$implementation"]) implementation retain qos ;;;
  publish_extensions clk retain qos ;;;
  assign_state (PStr "ready").

Definition add_subscription (topic : string) (h : handler) (qos : Z) : M unit :=
  d <- attr id ;;;
  assign (set_mqtt_subscription_handlers (<[topic := h]> (mqtt_subscription_handlers d))) ;;;
  emit (Subscribe topic qos).

Definition remove_subscription (topic : string) : M unit :=
  emit (Unsubscribe topic) ;;;
  d <- attr id ;;;
  match mqtt_subscription_handlers d !! topic with
  | Some _ =>
      assign (set_mqtt_subscription_handlers (delete topic (mqtt_subscription_handlers d)))
  | None => raise (KeyError topic)
  end.

Definition subscribe_topics : M unit :=
  d <- attr id ;;;
  add_subscription (join "/" [topic d; "$broadcast/#"]) broadcast_handler 0 ;;;
  for_each (nodes d) (λ '(_, node),
    for_each (get_subscriptions node) (λ '(topic, h), add_subscription topic h 0)).

Definition publish_node (p : publication) : M unit :=
  publish (pub_topic p) (pub_payload p) (pub_retain p) (pub_qos p).

Definition publish_nodes (retain : bool) (qos : Z) : M unit :=
  d <- attr id ;;;
  publish (join "/" [topic d; "$nodes"]) (PStr (join "," (nodes d).*1)) retain qos ;;;
  assign (set_nodes_published true) ;;;
  for_each (nodes d) (λ '(_, node),
    for_each (node_publish_attributes node retain qos) publish_node).

(** [if not setting in settings: settings[setting] = HOMIE_SETTINGS[setting]],
    once per default. *)
Definition _homie_validate_settings (env : Env)
    (settings : option (gmap string pyval)) : gmap string pyval :=
  match settings with
  | Some settings =>
      foldl (λ settings '(setting, value),
               if bool_decide (is_Some (settings !! setting)) then settings
               else <[setting := value]> settings)
            settings (HOMIE_SETTINGS env)
  | None => list_to_map (HOMIE_SETTINGS env)
  end.

Definition mqtt_on_connection (clk : Clock) (connected : bool) : M unit :=
  if connected then
    d <- attr id ;;;
    if negb (_mqtt_connected d) then
      assign (set__mqtt_connected true) ;;;
      publish_attributes clk true 1 ;;;
      publish_nodes true 1 ;;;
      subscribe_topics ;;;
      d <- attr id ;;;
      if negb (using_shared_mqtt_client (mqtt_client d)) || (instance_number d =? 1)
      then emit (SetWill (join "/" [topic d; "$state"]) (PStr "lost") true 1)
      else ret tt
    else ret tt
  else
    assign (set__mqtt_connected false).

Definition mqtt_on_message (topic : string) (payload retain qos : pyval) : M unit :=
  d <- attr id ;;;
  match mqtt_subscription_handlers d !! topic with
  | Some h =>
      if is_False retain
      then emit (Call h topic payload)
      else emit (Warn (RetainedMessage topic payload retain qos))
  | None => ret tt
  end.

(** Modelled from the spec: [validate_id] of [homie.support.helpers], which
    the constructor imports.  The spec gives the identifier grammar as
    lowercase alphanumerics and hyphens, not starting or ending with a
    hyphen; the empty identifier is invalid. *)
Definition id_char (c : Ascii.ascii) : bool :=
  let n := Ascii.N_of_ascii c in
  ((97 <=? n) && (n <=? 122) || (48 <=? n) && (n <=? 57) || (n =? 45))%N.

Definition validate_id (id : string) : bool :=
  let cs := String.list_ascii_of_string id in
  forallb id_char cs &&
  match head cs, last cs with
  | Some first, Some final =>
      negb (Ascii.eqb first "-"%char) && negb (Ascii.eqb final "-"%char)
  | _, _ => false
  end.

(** [assert name]: neither [None] nor the empty string. *)
Definition truthy (name : option string) : bool :=
  match name with
  | Some s => negb (String.eqb s "")
  | None => false
  end.

(** The constructor.  The counter is incremented before anything is
    checked; [client] is the object [connect_mqtt_client] returns. *)
Definition __init__ (env : Env) (g : Globals)
    (device_id name : option string)
    (homie_settings : option (gmap string pyval))
    (client : Transport)
    (extensions : list string) : Globals * outcome Device :=
  let instance_number := instance_count g + 1 in
  ({| instance_count := instance_number; repeating_timer := repeating_timer g |},
   let device_id := default (generate_device_id instance_number) device_id in
   if negb (validate_id device_id) then Raise AssertionError else
   if negb (truthy name) then Raise AssertionError else
   if negb (forallb (λ extension, bool_decide (extension ∈ EXTENSIONS)) extensions)
   then Raise AssertionError else
   let settings := _homie_validate_settings env homie_settings in
   match settings !! "topic" with
   | Some (PStr root) =>
       Return {| instance_number := instance_number;
                 _mqtt_connected := false;
                 device_id := device_id;
                 name := default "" name;
                 extensions := extensions;
                 _state := PStr "init";
                 homie_settings := settings;
                 topic := join "/" [root; device_id];
                 retained := true;
                 qos := 1;
                 nodes := [];
                 start_time := None;
                 nodes_published := false;
                 mqtt_client := client;
                 mqtt_subscription_handlers := ∅ |}
   | Some _ => Raise TypeError
   | None => Raise (KeyError "topic")
   end).

(** [start()]: [t0] is its own [time.time()] read, [clk] the reads of the
    connect sequence it may run, [timers] the timer class. *)
Definition start (timers : Timers) (t0 : float) (clk : Clock) (g : Globals) (d : Device)
    : Globals * result unit :=
  let d := set_start_time (Some t0) d in
  let on_ready : M unit :=
    if mqtt_connected (mqtt_client d) then mqtt_on_connection clk true else ret tt in
  if bool_decide ("stats" ∈ extensions d) then
    let made : Globals * outcome Repeating_Timer :=
      match repeating_timer g with
      | Some timer => (g, Return timer)
      | None =>
          match homie_settings d !! "update_interval" with
          | Some seconds =>
              match new_timer timers seconds with
              | Return timer =>
                  ({| instance_count := instance_count g;
                      repeating_timer := Some timer |}, Return timer)
              | Raise e => (g, Raise e)
              end
          | None => (g, Raise (KeyError "update_interval"))
          end
      end in
    match made with
    | (g, Return timer) =>
        match add_callback timers (instance_number d) timer with
        | Return timer =>
            ({| instance_count := instance_count g; repeating_timer := Some timer |},
             on_ready d)
        | Raise e => (g, Result [] d (Raise e))
        end
    | (g, Raise e) => (g, Result [] d (Raise e))
    end
  else (g, on_ready d).

(** ** Observations on traces *)

Definition is_publish_to (t : string) (e : event) : bool :=
  match e with
  | Publish t' _ _ _ => bool_decide (t' = t)
  | _ => false
  end.

Definition is_set_will (e : event) : bool :=
  match e with SetWill _ _ _ _ => true | _ => false end.

Definition is_call (e : event) : bool :=
  match e with Call _ _ _ => true | _ => false end.

Definition is_transport_call (e : event) : bool :=
  match e with
  | Publish _ _ _ _ | Subscribe _ _ | Unsubscribe _ | SetWill _ _ _ _ => true
  | _ => false
  end.


Definition count (p : event → bool) (tr : list event) : nat :=
  length (List.filter p tr).

Definition not_set_will (e : event) : Prop := is_set_will e = false.

(** Frames: what a computation leaves alone, whatever its outcome. *)
Definition keeps {A B} (f : Device → B) (m : M A) : Prop :=
  ∀ d, f (self (m d)) = f d.

(** Footprints: a property of every event a computation emits. *)
Definition emits {A} (P : event → Prop) (m : M A) : Prop :=
  ∀ d, Forall P (trace (m d)).

(** The attributes no method of the connect sequence assigns. *)
Definition identity (d : Device) :=
  (instance_number d, _mqtt_connected d, device_id d, name d, extensions d,
   homie_settings d, topic d, nodes d, start_time d, mqtt_client d).

(** ** Well-formed devices *)

Definition SETTINGS : list string :=
  ["version"; "topic"; "fw_name"; "fw_version"; "update_interval"; "implementation"].

(** Every key of [HOMIE_SETTINGS] is in the device's settings, as
    [_homie_validate_settings] leaves them. *)
Definition configured (d : Device) : bool :=
  forallb (λ key, bool_decide (is_Some (homie_settings d !! key))) SETTINGS.

(** Every declared extension is a supported one, as the constructor asserts. *)
Definition supported (d : Device) : bool :=
  forallb (λ extension, bool_decide (extension ∈ EXTENSIONS)) (extensions d).

(** A device that declares [stats] has been started, so that its uptime
    can be computed. *)
Definition can_report (d : Device) : bool :=
  implb (bool_decide ("stats" ∈ extensions d)) (bool_decide (is_Some (start_time d))).

(** The user did not override the topic root with something that is not a
    string. *)
Definition topic_is_str (settings : option (gmap string pyval)) : bool :=
  match settings ≫= (.!! "topic") with
  | Some (PStr _) | None => true
  | Some _ => false
  end.

Definition is_upper (c : ascii) : bool :=
  let n := Ascii.N_of_ascii c in ((65 <=? n) && (n <=? 90))%N.

(** ** What the collaborators see *)

Definition publication_event (p : publication) : event :=
  Publish (pub_topic p) (pub_payload p) (pub_retain p) (pub_qos p).

(** The publishes of every node's [publish_attributes], in registry order. *)
Definition node_events (retain : bool) (qos : Z) (ns : list (string * Node)) : list event :=
  ns ≫= λ entry, publication_event <$> node_publish_attributes entry.2 retain qos.

Definition subscribe_event (s : string * handler) : event := Subscribe s.1 0.

Definition node_subscriptions (ns : list (string * Node)) : list (string * handler) :=
  ns ≫= λ entry, get_subscriptions entry.2.

(** Every (topic, handler) pair [subscribe_topics] registers, in order. *)
Definition subscriptions (d : Device) : list (string * handler) :=
  (join "/" [topic d; "$broadcast/#"], broadcast_handler) :: node_subscriptions (nodes d).

Definition register (hs : gmap string handler) (subs : list (string * handler))
    : gmap string handler :=
  foldl (λ hs s, <[s.1 := s.2]> hs) hs subs.

(** The last-will registration that ends a connect sequence (lines 243-244). *)
Definition last_will (d : Device) : list event :=
  if negb (using_shared_mqtt_client (mqtt_client d)) || (instance_number d =? 1)
  then [SetWill (join "/" [topic d; "$state"]) (PStr "lost") true 1]
  else [].

(** Two events that differ at most in the payload of a clock-fed topic. *)
Definition same_but_clock (d : Device) (e1 e2 : event) : Prop :=
  e1 = e2 ∨
  ∃ t p1 p2 retain qos,
    e1 = Publish t p1 retain qos ∧ e2 = Publish t p2 retain qos ∧
    (t = join "/" [topic d; "$stats/uptime"] ∨ t = join "/" [topic d; "$stats/lastupdate"]).

(** ** Two devices on one transport *)





(** ** Sample devices *)

Definition linux : Env :=
  {| homie___version__ := PStr "0.3.0"; sys_platform := PStr "linux" |}.

Definition own_client : Transport :=
  {| using_shared_mqtt_client := false; mqtt_connected := false;
     get_mac_ip_address := (PStr "b8:27:eb:00:00:01", PStr "192.168.1.20") |}.

Definition shared_client : Transport :=
  {| using_shared_mqtt_client := true; mqtt_connected := false;
     get_mac_ip_address := (PStr "b8:27:eb:00:00:01", PStr "192.168.1.20") |}.

(** The device [Device_Base(id, "Sensor", None, ..., exts)] is when it is
    the [n]-th one constructed, with [start_time] as given. *)
Definition sample (n : Z) (id : string) (client : Transport) (exts : list string)
    (started : option float) : Device :=
  {| instance_number := n;
     _mqtt_connected := false;
     device_id := id;
     name := "Sensor";
     extensions := exts;
     _state := PStr "init";
     homie_settings := list_to_map (HOMIE_SETTINGS linux);
     topic := "homie/" +:+ id;
     retained := true;
     qos := 1;
     nodes := [];
     start_time := started;
     nodes_published := false;
     mqtt_client := client;
     mqtt_subscription_handlers := ∅ |}.

Definition kitchen : Device :=
  sample 1 "kitchen-sensor" own_client ["stats"] (Some 990%float).

Definition morning : Clock :=
  {| time_time := 1000.5%float;
     datetime_now := {| year := 2024; month := 3; day := 7;
                        hour := 9; minute := 5; second := 0 |} |}.

Definition noon : Clock :=
  {| time_time := 11790.5%float;
     datetime_now := {| year := 2024; month := 3; day := 7;
                        hour := 12; minute := 4; second := 50 |} |}.

(** A timer class for the examples: for a whole number of seconds the
    constructor makes a timer that runs at nine tenths of it, anything else
    it refuses; [add_callback] appends. *)
Definition plain_timers : Timers :=
  {| new_timer := λ seconds,
       match seconds with
       | PInt n => Return {| interval := PInt ((n * 9) `div` 10); callbacks := [] |}
       | _ => Raise TypeError
       end;
     add_callback := λ n timer,
       Return {| interval := interval timer; callbacks := callbacks timer ++ [n] |} |}.



Definition porch : Device := sample 1 "porch-light" shared_client ["stats"] (Some 990%float).

Definition pump : Device := sample 2 "garden-pump" shared_client [] None.

(** ** The node registry *)

(** [items[key] = value] on a dict kept in insertion order: an existing
    key keeps its place, a new one goes last. *)
Fixpoint dict_set {V} (key : string) (value : V) (items : list (string * V))
    : list (string * V) :=
  match items with
  | [] => [(key, value)]
  | (k, v) :: rest =>
      if decide (k = key) then (k, value) :: rest
      else (k, v) :: dict_set key value rest
  end.

(** [items.get(key)] *)
Fixpoint dict_get {V} (key : string) (items : list (string * V)) : option V :=
  match items with
  | [] => None
  | (k, v) :: rest => if decide (k = key) then Some v else dict_get key rest
  end.

(** [del items[key]], for a key that is present. *)
Fixpoint dict_del {V} (key : string) (items : list (string * V)) : list (string * V) :=
  match items with
  | [] => []
  | (k, v) :: rest => if decide (k = key) then rest else (k, v) :: dict_del key rest
  end.

Definition set_nodes (v : list (string * Node)) (d : Device) : Device :=
  {| instance_number := instance_number d; _mqtt_connected := _mqtt_connected d;
     device_id := device_id d; name := name d; extensions := extensions d;
     _state := _state d; homie_settings := homie_settings d; topic := topic d;
     retained := retained d; qos := qos d; nodes := v;
     start_time := start_time d; nodes_published := nodes_published d;
     mqtt_client := mqtt_client d;
     mqtt_subscription_handlers := mqtt_subscription_handlers d |}.

(** [add_node(node)]; [node_id] is [node.id]. *)
Definition add_node (node_id : string) (node : Node) : M unit :=
  d <- attr id ;;;
  assign (set_nodes (dict_set node_id node (nodes d))) ;;;
  d <- attr id ;;;
  if nodes_published d then publish_nodes (retained d) (qos d) else ret tt.

Definition remove_node (node_id : string) : M unit :=
  d <- attr id ;;;
  match dict_get node_id (nodes d) with
  | Some _ => assign (set_nodes (dict_del node_id (nodes d)))
  | None => raise (KeyError node_id)
  end ;;;
  d <- attr id ;;;
  if nodes_published d then publish_nodes false 1 else ret tt.

Definition get_node (node_id : string) : M (option Node) :=
  d <- attr id ;;;
  ret (dict_get node_id (nodes d)).

(** ** Any use of a device *)

(** One call of a method from outside: by the application, the transport
    or the timer. *)
Inductive call :=
| Start (timers : Timers) (t0 : float) (clk : Clock) (g : Globals)
| Cleanup
| Assign_state (state : pyval)
| Publish_attributes (clk : Clock) (retain : bool) (qos : Z)
| Publish_extensions (clk : Clock) (retain : bool) (qos : Z)
| Publish_firmware (retain : bool) (qos : Z)
| Publish_statastics (clk : Clock) (retain : bool) (qos : Z)
| Publish_uptime (clk : Clock) (retain : bool) (qos : Z)
| Add_subscription (topic : string) (h : handler) (qos : Z)
| Remove_subscription (topic : string)
| Subscribe_topics
| Add_node (node_id : string) (node : Node)
| Remove_node (node_id : string)
| Get_node (node_id : string)
| Publish_nodes (retain : bool) (qos : Z)
| Mqtt_on_connection (clk : Clock) (connected : bool)
| Mqtt_on_message (topic : string) (payload retain qos : pyval).

Definition perform (c : call) (d : Device) : result unit :=
  match c with
  | Start timers t0 clk g => (start timers t0 clk g d).2
  | Cleanup => cleanup d
  | Assign_state state => assign_state state d
  | Publish_attributes clk retain qos => publish_attributes clk retain qos d
  | Publish_extensions clk retain qos => publish_extensions clk retain qos d
  | Publish_firmware retain qos => publish_firmware retain qos d
  | Publish_statastics clk retain qos => publish_statastics clk retain qos d
  | Publish_uptime clk retain qos => publish_uptime clk retain qos d
  | Add_subscription topic h qos => add_subscription topic h qos d
  | Remove_subscription topic => remove_subscription topic d
  | Subscribe_topics => subscribe_topics d
  | Add_node node_id node => add_node node_id node d
  | Remove_node node_id => remove_node node_id d
  | Get_node node_id => bind (get_node node_id) (λ _, ret tt) d
  | Publish_nodes retain qos => publish_nodes retain qos d
  | Mqtt_on_connection clk connected => mqtt_on_connection clk connected d
  | Mqtt_on_message topic payload retain qos => mqtt_on_message topic payload retain qos d
  end.

(** The device after a sequence of calls, each one made whether or not the
    one before it raised. *)
Definition after (calls : list call) (d : Device) : Device :=
  foldl (λ d c, self (perform c d)) d calls.

(** Everything the device did during the sequence. *)
Fixpoint history (calls : list call) (d : Device) : list event :=
  match calls with
  | [] => []
  | c :: rest => trace (perform c d) ++ history rest (self (perform c d))
  end.

(** What is fixed when the constructor returns. *)
Definition constants (d : Device) :=
  (instance_number d, device_id d, name d, extensions d, homie_settings d,
   topic d, retained d, qos d, mqtt_client d).

(** An invariant: a property of the device that a computation keeps,
    whatever its outcome. *)
Definition preserves {A} (I : Device → Prop) (m : M A) : Prop :=
  ∀ d, I d → I (self (m d)).

Definition lamp : Node :=
  {| node_publish_attributes := λ retain qos,
       [ {| pub_topic := "homie/kitchen-sensor/lamp/$name"; pub_payload := PStr "Lamp";
            pub_retain := retain; pub_qos := qos |} ];
     get_subscriptions := [("homie/kitchen-sensor/lamp/power/set", node_handler 7)] |}.

(** * Proofs *)

(** ** Running computations *)

#[local] Arguments join : simpl never.
#[local] Arguments state_setter : simpl never.
#[local] Arguments publish_statastics : simpl never.
#[local] Arguments publish_firmware : simpl never.
#[local] Arguments publish_extensions : simpl never.
#[local] Arguments publish_attributes : simpl never.
#[local] Arguments publish_nodes : simpl never.
#[local] Arguments add_subscription : simpl never.
#[local] Arguments subscribe_topics : simpl never.
#[local] Arguments mqtt_on_connection : simpl never.

Lemma bind_run {A B} (m : M A) (k : A → M B) d :
  bind m k d =
  match out (m d) with
  | Return a =>
      Result (trace (m d) ++ trace (k a (self (m d))))
             (self (k a (self (m d)))) (out (k a (self (m d))))
  | Raise e => Result (trace (m d)) (self (m d)) (Raise e)
  end.
Proof.
  unfold bind. destruct (m d) as [t d1 [a|e]]; cbn; [|done].
  by destruct (k a d1).
Qed.

Lemma bind_assign {B} g (k : unit → M B) d : bind (assign g) k d = k tt (g d).
Proof. unfold bind, assign. by destruct (k tt (g d)). Qed.

Lemma bind_attr {A B} (g : Device → A) (k : A → M B) d : bind (attr g) k d = k (g d) d.
Proof. unfold bind, attr. by destruct (k (g d) d). Qed.

Ltac run := unfold bind, attr, assign, getitem, publish, emit, ret, raise; cbn.

(** ** Frames and footprints compose along a method body *)

Section combinators.
Context {C : Type} (f : Device → C) (P : event → Prop).

Lemma keeps_ret {A} (a : A) : keeps f (ret a).
Proof. by intros d. Qed.

Lemma keeps_raise {A} e : keeps f (raise (A:=A) e).
Proof. by intros d. Qed.

Lemma keeps_emit e : keeps f (emit e).
Proof. by intros d. Qed.

Lemma keeps_attr {A} (g : Device → A) : keeps f (attr g).
Proof. by intros d. Qed.

Lemma keeps_assign g : (∀ d, f (g d) = f d) → keeps f (assign g).
Proof. intros H d. apply H. Qed.

Lemma keeps_bind {A B} (m : M A) (k : A → M B) :
  keeps f m → (∀ a, keeps f (k a)) → keeps f (bind m k).
Proof.
  intros Hm Hk d. rewrite bind_run. specialize (Hm d).
  destruct (out (m d)) as [a|e]; cbn; [|done].
  by rewrite Hk.
Qed.

Lemma keeps_for_each {A} (xs : list A) (body : A → M unit) :
  (∀ x, keeps f (body x)) → keeps f (for_each xs body).
Proof.
  intros H. induction xs as [|x xs IH]; [apply keeps_ret|].
  cbn. apply keeps_bind; [apply H | intros _; apply IH].
Qed.

Lemma emits_ret {A} (a : A) : emits P (ret a).
Proof. intros d. constructor. Qed.

Lemma emits_raise {A} e : emits P (raise (A:=A) e).
Proof. intros d. constructor. Qed.

Lemma emits_emit e : P e → emits P (emit e).
Proof. intros H d. by repeat constructor. Qed.

Lemma emits_attr {A} (g : Device → A) : emits P (attr g).
Proof. intros d. constructor. Qed.

Lemma emits_assign g : emits P (assign g).
Proof. intros d. constructor. Qed.

Lemma emits_bind {A B} (m : M A) (k : A → M B) :
  emits P m → (∀ a, emits P (k a)) → emits P (bind m k).
Proof.
  intros Hm Hk d. rewrite bind_run. specialize (Hm d).
  destruct (out (m d)) as [a|e]; cbn; [|done].
  apply Forall_app. split; [done | apply Hk].
Qed.

Lemma emits_for_each {A} (xs : list A) (body : A → M unit) :
  (∀ x, emits P (body x)) → emits P (for_each xs body).
Proof.
  intros H. induction xs as [|x xs IH]; [apply emits_ret|].
  cbn. apply emits_bind; [apply H | intros _; apply IH].
Qed.

End combinators.

Create HintDb device.

(** Walks a method body: one subgoal per primitive that matters. *)
Ltac walk :=
  repeat first
    [ solve [auto with device]
    | apply keeps_bind | apply emits_bind
    | apply keeps_for_each | apply emits_for_each
    | apply keeps_ret | apply emits_ret
    | apply keeps_raise | apply emits_raise
    | apply keeps_attr | apply emits_attr
    | apply keeps_emit | apply emits_assign | apply emits_emit
    | apply keeps_assign; by intros []
    | progress unfold getitem, publish
    | match goal with
      | |- keeps _ (match ?x with _ => _ end) => destruct x
      | |- emits _ (match ?x with _ => _ end) => destruct x
      | |- ∀ _, _ => intros ?
      | |- keeps _ ((λ _, _) _) => cbv beta
      | |- emits _ ((λ _, _) _) => cbv beta
      end ].

Lemma state_setter_keeps state retain qos : keeps identity (state_setter state retain qos).
Proof. unfold state_setter. walk. Qed.

Lemma publish_statastics_keeps clk retain qos :
  keeps identity (publish_statastics clk retain qos).
Proof. unfold publish_statastics, uptime. walk. Qed.

Lemma publish_firmware_keeps retain qos : keeps identity (publish_firmware retain qos).
Proof. unfold publish_firmware. walk. Qed.

#[local] Hint Resolve state_setter_keeps publish_statastics_keeps publish_firmware_keeps : device.

Lemma publish_extensions_keeps clk retain qos :
  keeps identity (publish_extensions clk retain qos).
Proof. unfold publish_extensions. walk. Qed.

#[local] Hint Resolve publish_extensions_keeps : device.

Lemma publish_attributes_keeps clk retain qos :
  keeps identity (publish_attributes clk retain qos).
Proof. unfold publish_attributes, assign_state. walk. Qed.

Lemma publish_nodes_keeps retain qos : keeps identity (publish_nodes retain qos).
Proof. unfold publish_nodes, publish_node. walk. Qed.

Lemma add_subscription_keeps t h q : keeps identity (add_subscription t h q).
Proof. unfold add_subscription. walk. Qed.

#[local] Hint Resolve add_subscription_keeps : device.

Lemma subscribe_topics_keeps : keeps identity subscribe_topics.
Proof. unfold subscribe_topics. walk. Qed.

#[local] Hint Resolve publish_attributes_keeps publish_nodes_keeps subscribe_topics_keeps : device.

Lemma state_setter_no_will state retain qos :
  emits not_set_will (state_setter state retain qos).
Proof. unfold state_setter. walk; done. Qed.

Lemma publish_statastics_no_will clk retain qos :
  emits not_set_will (publish_statastics clk retain qos).
Proof. unfold publish_statastics, uptime. walk; done. Qed.

Lemma publish_firmware_no_will retain qos :
  emits not_set_will (publish_firmware retain qos).
Proof. unfold publish_firmware. walk; done. Qed.

#[local] Hint Resolve state_setter_no_will publish_statastics_no_will
  publish_firmware_no_will : device.

Lemma publish_extensions_no_will clk retain qos :
  emits not_set_will (publish_extensions clk retain qos).
Proof. unfold publish_extensions. walk; done. Qed.

#[local] Hint Resolve publish_extensions_no_will : device.

Lemma publish_attributes_no_will clk retain qos :
  emits not_set_will (publish_attributes clk retain qos).
Proof. unfold publish_attributes, assign_state. walk; done. Qed.

Lemma publish_nodes_no_will retain qos : emits not_set_will (publish_nodes retain qos).
Proof. unfold publish_nodes, publish_node. walk; done. Qed.

Lemma add_subscription_no_will t h q : emits not_set_will (add_subscription t h q).
Proof. unfold add_subscription. walk; done. Qed.

#[local] Hint Resolve add_subscription_no_will : device.

Lemma subscribe_topics_no_will : emits not_set_will subscribe_topics.
Proof. unfold subscribe_topics. walk; done. Qed.

#[local] Hint Resolve publish_attributes_no_will publish_nodes_no_will
  subscribe_topics_no_will : device.

(** ** Settings *)

Lemma configured_lookup d key :
  configured d = true → key ∈ SETTINGS → ∃ v, homie_settings d !! key = Some v.
Proof.
  unfold configured. rewrite forallb_forall. intros H Hin.
  apply list_elem_of_In, H, bool_decide_eq_true in Hin. exact Hin.
Qed.

Lemma can_report_started d :
  can_report d = true → "stats" ∈ extensions d → ∃ t0, start_time d = Some t0.
Proof.
  unfold can_report. intros H Hin.
  rewrite (bool_decide_eq_true_2 _ Hin) in H. cbn in H.
  by apply bool_decide_eq_true in H.
Qed.

(** ** Closed forms of the publishing methods *)

Lemma publish_statastics_started clk retain qos d v t0 :
  homie_settings d !! "update_interval" = Some v →
  start_time d = Some t0 →
  publish_statastics clk retain qos d =
  Result [ Publish (join "/" [topic d; "$stats/interval"]) v retain qos;
           Publish (join "/" [topic d; "$stats/uptime"])
                   (PFloat (PrimFloat.sub (time_time clk) t0)) retain qos;
           Publish (join "/" [topic d; "$stats/lastupdate"])
                   (PStr (strftime (datetime_now clk))) retain qos ]
         d (Return tt).
Proof.
  intros Hv Ht. unfold publish_statastics, uptime. run.
  rewrite Hv. cbn. rewrite Ht. done.
Qed.

Lemma publish_statastics_unstarted clk retain qos d v :
  homie_settings d !! "update_interval" = Some v →
  start_time d = None →
  publish_statastics clk retain qos d =
  Result [ Publish (join "/" [topic d; "$stats/interval"]) v retain qos ]
         d (Raise TypeError).
Proof.
  intros Hv Ht. unfold publish_statastics, uptime. run.
  rewrite Hv. cbn. rewrite Ht. done.
Qed.

Lemma publish_firmware_configured retain qos d :
  configured d = true →
  ∃ fw_name fw_version implementation,
    homie_settings d !! "fw_name" = Some fw_name ∧
    homie_settings d !! "fw_version" = Some fw_version ∧
    homie_settings d !! "implementation" = Some implementation ∧
    publish_firmware retain qos d =
    Result [ Publish (join "/" [topic d; "$localip"])
                     (get_mac_ip_address (mqtt_client d)).2 retain qos;
             Publish (join "/" [topic d; "$mac"])
                     (get_mac_ip_address (mqtt_client d)).1 retain qos;
             Publish (join "/" [topic d; "$fw/name"]) fw_name retain qos;
             Publish (join "/" [topic d; "$fw/version"]) fw_version retain qos;
             Publish (join "/" [topic d; "$implementation"]) implementation retain qos ]
           d (Return tt).
Proof.
  intros Hc.
  destruct (configured_lookup d "fw_name" Hc) as [n Hn]; [set_solver|].
  destruct (configured_lookup d "fw_version" Hc) as [v Hv]; [set_solver|].
  destruct (configured_lookup d "implementation" Hc) as [i Hi]; [set_solver|].
  exists n, v, i. repeat split; try done.
  unfold publish_firmware. run. destruct (get_mac_ip_address (mqtt_client d)) as [mac ip].
  run. rewrite Hn. cbn. rewrite Hv. cbn. rewrite Hi. done.
Qed.

Lemma publish_extensions_run clk retain qos d :
  configured d = true → can_report d = true →
  publish_extensions clk retain qos d =
  Result ((if bool_decide (join "," (extensions d) ≠ "")
           then [Publish (join "/" [topic d; "$extensions"])
                         (PStr (join "," (extensions d))) retain qos]
           else []) ++
          (if bool_decide ("stats" ∈ extensions d)
           then trace (publish_statastics clk retain qos d) else []) ++
          (if bool_decide ("firmware" ∈ extensions d)
           then trace (publish_firmware retain qos d) else []))
         d (Return tt).
Proof.
  intros Hc Hr.
  destruct (publish_firmware_configured retain qos d Hc) as (n & v & i & _ & _ & _ & Hfw).
  destruct (configured_lookup d "update_interval" Hc) as [u Hu]; [set_solver|].
  unfold publish_extensions. run.
  destruct (bool_decide (join "," (extensions d) ≠ "")); cbn;
    (case_bool_decide as Hs; cbn;
     [ destruct (can_report_started d Hr Hs) as [t0 Ht0];
       rewrite (publish_statastics_started clk retain qos d u t0 Hu Ht0); cbn | ]);
    (case_bool_decide; cbn; [rewrite Hfw; cbn|]); done.
Qed.

Lemma state_setter_valid state retain qos d :
  py_in state DEVICE_STATES = true →
  state_setter state retain qos d =
  Result [Publish (join "/" [topic d; "$state"]) state retain qos]
         (set__state state d) (Return tt).
Proof. intros H. unfold state_setter. rewrite H. done. Qed.

Lemma state_setter_invalid state retain qos d :
  py_in state DEVICE_STATES = false →
  state_setter state retain qos d =
  Result [Warn (InvalidDeviceState state)] d (Return tt).
Proof. intros H. unfold state_setter. rewrite H. done. Qed.

Lemma publish_attributes_run clk d :
  configured d = true → can_report d = true →
  ∃ version implementation,
    homie_settings d !! "version" = Some version ∧
    homie_settings d !! "implementation" = Some implementation ∧
    publish_attributes clk true 1 d =
    Result ([ Publish (join "/" [topic d; "$homie"]) version true 1;
              Publish (join "/" [topic d; "$name"]) (PStr (name d)) true 1;
              Publish (join "/" [topic d; "$implementation"]) implementation true 1 ] ++
            trace (publish_extensions clk true 1 d) ++
            [ Publish (join "/" [topic d; "$state"]) (PStr "ready") true 1 ])
           (set__state (PStr "ready") d) (Return tt).
Proof.
  intros Hc Hr.
  destruct (configured_lookup d "version" Hc) as [v Hv]; [set_solver|].
  destruct (configured_lookup d "implementation" Hc) as [i Hi]; [set_solver|].
  exists v, i. repeat split; try done.
  unfold publish_attributes. run. rewrite Hv. cbn. rewrite Hi. cbn.
  rewrite (publish_extensions_run clk true 1 d Hc Hr). cbn.
  unfold assign_state. by rewrite state_setter_valid.
Qed.

Lemma for_each_publish_node ps d :
  for_each ps publish_node d = Result (publication_event <$> ps) d (Return tt).
Proof.
  induction ps as [|p ps IH]; [done|].
  cbn. unfold bind. cbn. by rewrite IH.
Qed.

Lemma for_each_node_publish retain qos (ns : list (string * Node)) d :
  for_each ns (λ '(_, node),
    for_each (node_publish_attributes node retain qos) publish_node) d =
  Result (node_events retain qos ns) d (Return tt).
Proof.
  induction ns as [|[i n] ns IH]; [done|].
  cbn. unfold bind. by rewrite for_each_publish_node, IH.
Qed.

Lemma publish_nodes_run retain qos d :
  publish_nodes retain qos d =
  Result (Publish (join "/" [topic d; "$nodes"]) (PStr (join "," (nodes d).*1)) retain qos
            :: node_events retain qos (nodes d))
         (set_nodes_published true d) (Return tt).
Proof.
  unfold publish_nodes. run.
  by rewrite (for_each_node_publish retain qos (nodes d) (set_nodes_published true d)).
Qed.

Lemma add_subscription_run t h q d :
  add_subscription t h q d =
  Result [Subscribe t q]
         (set_mqtt_subscription_handlers (<[t := h]> (mqtt_subscription_handlers d)) d)
         (Return tt).
Proof. done. Qed.

Lemma for_each_add_subscription (subs : list (string * handler)) d :
  for_each subs (λ '(t, h), add_subscription t h 0) d =
  Result (subscribe_event <$> subs)
         (set_mqtt_subscription_handlers (register (mqtt_subscription_handlers d) subs) d)
         (Return tt).
Proof.
  revert d. induction subs as [|[t h] subs IH]; intros d; [by destruct d|].
  cbn. unfold bind. by rewrite add_subscription_run, IH.
Qed.

Lemma for_each_node_subscribe (ns : list (string * Node)) d :
  for_each ns (λ '(_, node),
    for_each (get_subscriptions node) (λ '(t, h), add_subscription t h 0)) d =
  Result (subscribe_event <$> node_subscriptions ns)
         (set_mqtt_subscription_handlers
            (register (mqtt_subscription_handlers d) (node_subscriptions ns)) d)
         (Return tt).
Proof.
  revert d. induction ns as [|[i n] ns IH]; intros d; [by destruct d|].
  cbn. unfold bind. rewrite for_each_add_subscription, IH. cbn.
  unfold node_subscriptions. cbn. rewrite fmap_app. unfold register.
  by rewrite foldl_app.
Qed.

Lemma subscribe_topics_run d :
  subscribe_topics d =
  Result (subscribe_event <$> subscriptions d)
         (set_mqtt_subscription_handlers
            (register (mqtt_subscription_handlers d) (subscriptions d)) d)
         (Return tt).
Proof.
  unfold subscribe_topics. run. rewrite add_subscription_run. cbn.
  by rewrite for_each_node_subscribe.
Qed.

(** ** The state property *)

Lemma py_in_DEVICE_STATES v :
  py_in v DEVICE_STATES = true ↔
  v ∈ [PStr "init"; PStr "ready"; PStr "disconnected"; PStr "sleeping";
       PStr "alert"; PStr "lost"].
Proof.
  split.
  - destruct v as [| | | |s]; try done. cbn. intros H%bool_decide_eq_true.
    unfold DEVICE_STATES in H.
    repeat (apply elem_of_cons in H as [->|H]; [by repeat constructor|]).
    by apply elem_of_nil in H.
  - intros H. repeat (apply elem_of_cons in H as [->|H]; [done|]).
    by apply elem_of_nil in H.
Qed.

(** C2.  Assigning [device.state = v]: when [v] is one of the six states of
    the enumeration, the in-memory state becomes [v] and the only effect is
    one publish of [v] to the device's [$state] topic, retained, at qos 1;
    for any other [v] the device is unchanged, nothing is published (the
    only effect is the logged warning) and no exception is raised. *)
Theorem state_assignment (v : pyval) (d : Device) :
  (py_in v DEVICE_STATES = true ↔
     v ∈ [PStr "init"; PStr "ready"; PStr "disconnected"; PStr "sleeping";
          PStr "alert"; PStr "lost"]) ∧
  (py_in v DEVICE_STATES = true →
     assign_state v d =
       Result [Publish (join "/" [topic d; "$state"]) v true 1]
              (set__state v d) (Return tt) ∧
     _state (self (assign_state v d)) = v) ∧
  (py_in v DEVICE_STATES = false →
     assign_state v d = Result [Warn (InvalidDeviceState v)] d (Return tt) ∧
     count is_transport_call (trace (assign_state v d)) = 0%nat).
Proof.
  split; [apply py_in_DEVICE_STATES|]. unfold assign_state. split; intros H.
  - by rewrite state_setter_valid.
  - by rewrite state_setter_invalid.
Qed.

Lemma state_assignment_witness :
  _state (self (assign_state (PStr "alert") kitchen)) = PStr "alert" ∧
  trace (assign_state (PStr "asleep") kitchen) = [Warn (InvalidDeviceState (PStr "asleep"))].
Proof.
  split.
  - apply (state_assignment (PStr "alert") kitchen). reflexivity.
  - destruct (state_assignment (PStr "asleep") kitchen) as (_ & _ & H).
    destruct H as [-> _]; reflexivity.
Defined.

(** ** Inbound messages *)

(** C6.  A message delivered to [mqtt_on_message]: with [retain] true (or
    anything but [False]) no handler is invoked, and for a subscribed topic
    the only effect is the logged warning; with [retain] false and a handler
    registered for the topic, that handler is called exactly once, with
    (topic, payload); with no handler registered for the topic nothing
    happens.  No case raises and none changes the device. *)
Theorem message_dispatch (topic : string) (payload retain qos : pyval) (d : Device) :
  (is_False retain = false →
     count is_call (trace (mqtt_on_message topic payload retain qos d)) = 0%nat ∧
     self (mqtt_on_message topic payload retain qos d) = d ∧
     out (mqtt_on_message topic payload retain qos d) = Return tt) ∧
  (∀ h, mqtt_subscription_handlers d !! topic = Some h →
     mqtt_on_message topic payload (PBool true) qos d =
       Result [Warn (RetainedMessage topic payload (PBool true) qos)] d (Return tt) ∧
     mqtt_on_message topic payload (PBool false) qos d =
       Result [Call h topic payload] d (Return tt)) ∧
  (mqtt_subscription_handlers d !! topic = None →
     mqtt_on_message topic payload retain qos d = Result [] d (Return tt)).
Proof.
  unfold mqtt_on_message. rewrite !bind_attr. cbn. repeat split.
  - destruct (_ !! topic); [rewrite H|]; done.
  - destruct (_ !! topic); [rewrite H|]; done.
  - destruct (_ !! topic); [rewrite H|]; done.
  - by rewrite H.
  - by rewrite H.
  - intros ->. done.
Qed.

Lemma message_dispatch_witness :
  mqtt_on_message "homie/kitchen-sensor/lamp/power/set" (PStr "true") (PBool false) (PInt 0)
    (set_mqtt_subscription_handlers
       {["homie/kitchen-sensor/lamp/power/set" := node_handler 7]} kitchen) =
  Result [Call (node_handler 7) "homie/kitchen-sensor/lamp/power/set" (PStr "true")]
    (set_mqtt_subscription_handlers
       {["homie/kitchen-sensor/lamp/power/set" := node_handler 7]} kitchen)
    (Return tt).
Proof.
  apply (message_dispatch "homie/kitchen-sensor/lamp/power/set" (PStr "true")
           (PBool false) (PInt 0)). reflexivity.
Defined.

(** ** Removing a subscription *)

(** C10.  [remove_subscription(topic)] for a topic that is not in the
    registry: the transport's unsubscribe for that topic is issued, then the
    [del] raises KeyError; the registry, and the device, are unchanged. *)
Theorem remove_subscription_missing (topic : string) (d : Device) :
  mqtt_subscription_handlers d !! topic = None →
  remove_subscription topic d = Result [Unsubscribe topic] d (Raise (KeyError topic)).
Proof.
  intros H. unfold remove_subscription. run. by rewrite H.
Qed.

Lemma remove_subscription_missing_witness :
  remove_subscription "homie/kitchen-sensor/$broadcast/#" kitchen =
  Result [Unsubscribe "homie/kitchen-sensor/$broadcast/#"] kitchen
         (Raise (KeyError "homie/kitchen-sensor/$broadcast/#")).
Proof. apply remove_subscription_missing. reflexivity. Defined.

(** ** Publishing the attributes *)

(** C3, as stated, fails on the device the constructor returns when that
    device declares stats (the default) and has not been started:
    [publish_attributes()] publishes five attributes, then the uptime
    subtraction of the stats extension raises TypeError; the state is never
    assigned and stays init. *)
Lemma publish_attributes_before_start :
  (__init__ linux {| instance_count := 0; repeating_timer := None |}
            (Some "kitchen-sensor") (Some "Sensor") None own_client ["stats"]).2 =
    Return (set_start_time None kitchen) ∧
  publish_attributes morning true 1 (set_start_time None kitchen) =
    Result [ Publish "homie/kitchen-sensor/$homie" (PStr "4.0.0") true 1;
             Publish "homie/kitchen-sensor/$name" (PStr "Sensor") true 1;
             Publish "homie/kitchen-sensor/$implementation" (PStr "linux") true 1;
             Publish "homie/kitchen-sensor/$extensions" (PStr "stats") true 1;
             Publish "homie/kitchen-sensor/$stats/interval" (PInt 60) true 1 ]
           (set_start_time None kitchen) (Raise TypeError) ∧
  _state (self (publish_attributes morning true 1 (set_start_time None kitchen))) = PStr "init".
Proof. repeat split; vm_compute; reflexivity. Qed.

(** C3, amended.  [publish_attributes()] on a constructed device that has
    been started if it declares stats returns, having published, in this
    order: [$homie] (the version of the settings), [$name],
    [$implementation]; the extension attributes, that is [$extensions]
    (the comma-joined names, when there are any), for stats
    [$stats/interval], [$stats/uptime] and [$stats/lastupdate], for firmware
    [$localip], [$mac], [$fw/name], [$fw/version] and [$implementation];
    and last the retained [$state] = ready of the state assignment, which
    leaves the device in state ready. *)
Theorem publish_attributes_order (clk : Clock) (d : Device) :
  configured d = true → can_report d = true →
  ∃ version implementation seconds fw_name fw_version,
    homie_settings d !! "version" = Some version ∧
    homie_settings d !! "implementation" = Some implementation ∧
    homie_settings d !! "update_interval" = Some seconds ∧
    homie_settings d !! "fw_name" = Some fw_name ∧
    homie_settings d !! "fw_version" = Some fw_version ∧
    publish_attributes clk true 1 d =
      Result ([ Publish (join "/" [topic d; "$homie"]) version true 1;
                Publish (join "/" [topic d; "$name"]) (PStr (name d)) true 1;
                Publish (join "/" [topic d; "$implementation"]) implementation true 1 ] ++
              (if bool_decide (join "," (extensions d) ≠ "")
               then [ Publish (join "/" [topic d; "$extensions"])
                              (PStr (join "," (extensions d))) true 1 ]
               else []) ++
              (if bool_decide ("stats" ∈ extensions d)
               then match start_time d with
                    | Some t0 =>
                        [ Publish (join "/" [topic d; "$stats/interval"]) seconds true 1;
                          Publish (join "/" [topic d; "$stats/uptime"])
                                  (PFloat (PrimFloat.sub (time_time clk) t0)) true 1;
                          Publish (join "/" [topic d; "$stats/lastupdate"])
                                  (PStr (strftime (datetime_now clk))) true 1 ]
                    | None => []
                    end
               else []) ++
              (if bool_decide ("firmware" ∈ extensions d)
               then [ Publish (join "/" [topic d; "$localip"])
                              (get_mac_ip_address (mqtt_client d)).2 true 1;
                      Publish (join "/" [topic d; "$mac"])
                              (get_mac_ip_address (mqtt_client d)).1 true 1;
                      Publish (join "/" [topic d; "$fw/name"]) fw_name true 1;
                      Publish (join "/" [topic d; "$fw/version"]) fw_version true 1;
                      Publish (join "/" [topic d; "$implementation"]) implementation true 1 ]
               else []) ++
              [ Publish (join "/" [topic d; "$state"]) (PStr "ready") true 1 ])
             (set__state (PStr "ready") d) (Return tt) ∧
    _state (self (publish_attributes clk true 1 d)) = PStr "ready" ∧
    last (trace (publish_attributes clk true 1 d)) =
      Some (Publish (join "/" [topic d; "$state"]) (PStr "ready") true 1).
Proof.
  intros Hc Hr.
  destruct (publish_attributes_run clk d Hc Hr) as (v & i & Hv & Hi & E).
  destruct (configured_lookup d "update_interval" Hc) as [u Hu]; [set_solver|].
  destruct (publish_firmware_configured true 1 d Hc) as (n & fv & i' & Hn & Hfv & Hi' & Efw).
  assert (i' = i) as -> by congruence.
  exists v, i, u, n, fv. rewrite E, (publish_extensions_run clk true 1 d Hc Hr), Efw.
  cbn [trace self].
  assert ((if bool_decide ("stats" ∈ extensions d)
           then trace (publish_statastics clk true 1 d) else []) =
          (if bool_decide ("stats" ∈ extensions d)
           then match start_time d with
                | Some t0 =>
                    [ Publish (join "/" [topic d; "$stats/interval"]) u true 1;
                      Publish (join "/" [topic d; "$stats/uptime"])
                              (PFloat (PrimFloat.sub (time_time clk) t0)) true 1;
                      Publish (join "/" [topic d; "$stats/lastupdate"])
                              (PStr (strftime (datetime_now clk))) true 1 ]
                | None => []
                end
           else [])) as ->.
  { case_bool_decide as Hs; [|done].
    destruct (can_report_started d Hr Hs) as [t0 Ht0].
    by rewrite (publish_statastics_started clk true 1 d u t0 Hu Ht0), Ht0. }
  rewrite <- !app_assoc.
  repeat split; try done.
  rewrite ?app_comm_cons, !app_assoc. apply last_snoc.
Qed.

Lemma publish_attributes_order_witness :
  publish_attributes morning true 1 kitchen =
    Result [ Publish "homie/kitchen-sensor/$homie" (PStr "4.0.0") true 1;
             Publish "homie/kitchen-sensor/$name" (PStr "Sensor") true 1;
             Publish "homie/kitchen-sensor/$implementation" (PStr "linux") true 1;
             Publish "homie/kitchen-sensor/$extensions" (PStr "stats") true 1;
             Publish "homie/kitchen-sensor/$stats/interval" (PInt 60) true 1;
             Publish "homie/kitchen-sensor/$stats/uptime" (PFloat 10.5) true 1;
             Publish "homie/kitchen-sensor/$stats/lastupdate"
                     (PStr "07/03/2024 09:05:00") true 1;
             Publish "homie/kitchen-sensor/$state" (PStr "ready") true 1 ]
           (set__state (PStr "ready") kitchen) (Return tt).
Proof.
  destruct (publish_attributes_order morning kitchen)
    as (v & i & u & n & fv & Hv & Hi & Hu & _ & _ & -> & _); [reflexivity..|].
  vm_compute in Hv, Hi, Hu. injection Hv as <-. injection Hi as <-. injection Hu as <-.
  reflexivity.
Defined.

(** ** The connect handler *)

Lemma mqtt_on_connection_guarded clk d :
  _mqtt_connected d = true → mqtt_on_connection clk true d = Result [] d (Return tt).
Proof. intros H. unfold mqtt_on_connection. rewrite bind_attr; cbv beta delta [id]. by rewrite H. Qed.

Lemma mqtt_on_connection_sets_guard clk d :
  _mqtt_connected (self (mqtt_on_connection clk true d)) = true.
Proof.
  unfold mqtt_on_connection. rewrite bind_attr; cbv beta delta [id].
  destruct (_mqtt_connected d) eqn:E; cbv beta iota delta [negb]; [done|].
  rewrite bind_assign.
  match goal with |- _mqtt_connected (self (?m ?d0)) = true =>
    assert (keeps identity m) as K by walk;
    specialize (K d0); by injection K
  end.
Qed.

Lemma for_each_guarded clks d :
  _mqtt_connected d = true →
  for_each clks (λ clk, mqtt_on_connection clk true) d = Result [] d (Return tt).
Proof.
  intros H. induction clks as [|clk clks IH]; [done|].
  cbn. unfold bind. by rewrite mqtt_on_connection_guarded, IH.
Qed.

(** The connect sequence of a constructed device, on a connect edge. *)
Lemma mqtt_on_connection_edge clk d :
  _mqtt_connected d = false → configured d = true → can_report d = true →
  mqtt_on_connection clk true d =
    Result (trace (publish_attributes clk true 1 (set__mqtt_connected true d)) ++
            trace (publish_nodes true 1
                     (self (publish_attributes clk true 1 (set__mqtt_connected true d)))) ++
            trace (subscribe_topics
                     (self (publish_nodes true 1
                        (self (publish_attributes clk true 1 (set__mqtt_connected true d)))))) ++
            last_will d)
           (self (subscribe_topics
                    (self (publish_nodes true 1
                       (self (publish_attributes clk true 1 (set__mqtt_connected true d)))))))
           (Return tt).
Proof.
  intros Hg Hc Hr. unfold mqtt_on_connection. rewrite bind_attr; cbv beta delta [id]. rewrite Hg. cbv beta iota delta [negb].
  rewrite bind_assign.
  destruct (publish_attributes_run clk (set__mqtt_connected true d) Hc Hr)
    as (v & i & _ & _ & E).
  rewrite bind_run, E. cbn [out trace self].
  rewrite bind_run, publish_nodes_run. cbn [out trace self].
  rewrite bind_run, subscribe_topics_run. cbn [out trace self].
  rewrite bind_attr; cbv beta delta [id]. unfold last_will. cbn.
  rewrite <- !app_assoc. cbn.
  by destruct (using_shared_mqtt_client (mqtt_client d)), (instance_number d =? 1).
Qed.

(** C1.  The connect handler runs the connect sequence at most once per
    connect edge.  On a connect signal with the guard clear, a constructed
    device runs publish_attributes, publish_nodes, subscribe_topics and the
    conditional last-will registration, in that order; whatever the outcome
    of any connect signal, the guard is set after it; with the guard set, a
    connect signal, and any number of them in a row, makes no call at all
    and leaves the device as it is; a disconnect signal makes no call and
    clears the guard only. *)
Theorem connect_sequence_once_per_edge (clk : Clock) (d : Device) :
  (_mqtt_connected d = false → configured d = true → can_report d = true →
     mqtt_on_connection clk true d =
       Result (trace (publish_attributes clk true 1 (set__mqtt_connected true d)) ++
               trace (publish_nodes true 1
                        (self (publish_attributes clk true 1 (set__mqtt_connected true d)))) ++
               trace (subscribe_topics
                        (self (publish_nodes true 1
                           (self (publish_attributes clk true 1
                                    (set__mqtt_connected true d)))))) ++
               last_will d)
              (self (subscribe_topics
                       (self (publish_nodes true 1
                          (self (publish_attributes clk true 1
                                   (set__mqtt_connected true d)))))))
              (Return tt)) ∧
  _mqtt_connected (self (mqtt_on_connection clk true d)) = true ∧
  (_mqtt_connected d = true → mqtt_on_connection clk true d = Result [] d (Return tt)) ∧
  (∀ clks,
     for_each clks (λ clk', mqtt_on_connection clk' true)
              (self (mqtt_on_connection clk true d)) =
       Result [] (self (mqtt_on_connection clk true d)) (Return tt)) ∧
  mqtt_on_connection clk false d = Result [] (set__mqtt_connected false d) (Return tt).
Proof.
  split; [apply mqtt_on_connection_edge|].
  split; [apply mqtt_on_connection_sets_guard|].
  split; [apply mqtt_on_connection_guarded|].
  split; [|done].
  intros clks. apply for_each_guarded, mqtt_on_connection_sets_guard.
Qed.

Lemma connect_sequence_once_per_edge_witness :
  trace (mqtt_on_connection morning true kitchen) =
    [ Publish "homie/kitchen-sensor/$homie" (PStr "4.0.0") true 1;
      Publish "homie/kitchen-sensor/$name" (PStr "Sensor") true 1;
      Publish "homie/kitchen-sensor/$implementation" (PStr "linux") true 1;
      Publish "homie/kitchen-sensor/$extensions" (PStr "stats") true 1;
      Publish "homie/kitchen-sensor/$stats/interval" (PInt 60) true 1;
      Publish "homie/kitchen-sensor/$stats/uptime" (PFloat 10.5) true 1;
      Publish "homie/kitchen-sensor/$stats/lastupdate" (PStr "07/03/2024 09:05:00") true 1;
      Publish "homie/kitchen-sensor/$state" (PStr "ready") true 1;
      Publish "homie/kitchen-sensor/$nodes" (PStr "") true 1;
      Subscribe "homie/kitchen-sensor/$broadcast/#" 0;
      SetWill "homie/kitchen-sensor/$state" (PStr "lost") true 1 ] ∧
  mqtt_on_connection noon true (self (mqtt_on_connection morning true kitchen)) =
    Result [] (self (mqtt_on_connection morning true kitchen)) (Return tt).
Proof.
  destruct (connect_sequence_once_per_edge morning kitchen) as (E & G & _).
  split.
  - rewrite E; reflexivity.
  - apply (connect_sequence_once_per_edge noon). exact G.
Defined.

(** ** The [$extensions] attribute *)

Lemma append_inj_l (t x y : string) : t +:+ x = t +:+ y → x = y.
Proof. induction t as [|c t IH]; cbn; [done|]. intros [= H]. by apply IH. Qed.

Lemma subtopic_inj (t x y : string) : join "/" [t; x] = join "/" [t; y] → x = y.
Proof. unfold join. intros H%append_inj_l. by injection H. Qed.

Lemma is_publish_to_other (t x y : string) payload retain qos :
  x ≠ y → is_publish_to (join "/" [t; y]) (Publish (join "/" [t; x]) payload retain qos) = false.
Proof. intros H. cbn. apply bool_decide_eq_false. by intros E%subtopic_inj. Qed.

Lemma is_publish_to_same (t : string) payload retain qos :
  is_publish_to t (Publish t payload retain qos) = true.
Proof. by apply bool_decide_eq_true. Qed.

#[local] Arguments is_publish_to : simpl never.

Lemma trace_bind {A B} (m : M A) (k : A → M B) d :
  trace (bind m k d) =
  trace (m d) ++ match out (m d) with
                 | Return a => trace (k a (self (m d)))
                 | Raise _ => []
                 end.
Proof. rewrite bind_run. destruct (out (m d)); cbn; by rewrite ?app_nil_r. Qed.

Lemma publish_statastics_not_extensions clk retain qos d :
  List.filter (is_publish_to (join "/" [topic d; "$extensions"]))
              (trace (publish_statastics clk retain qos d)) = [].
Proof.
  unfold publish_statastics, uptime. run.
  destruct (homie_settings d !! "update_interval"); cbn; [|done].
  destruct (start_time d); cbn; repeat (rewrite is_publish_to_other by done; cbn); done.
Qed.

Lemma publish_firmware_not_extensions retain qos d :
  List.filter (is_publish_to (join "/" [topic d; "$extensions"]))
              (trace (publish_firmware retain qos d)) = [].
Proof.
  unfold publish_firmware. run. destruct (get_mac_ip_address (mqtt_client d)) as [mac ip].
  run.
  destruct (homie_settings d !! "fw_name"); cbn;
    [destruct (homie_settings d !! "fw_version"); cbn;
       [destruct (homie_settings d !! "implementation"); cbn|]|];
    repeat (rewrite is_publish_to_other by done; cbn); done.
Qed.

Lemma keeps_topic {A} (m : M A) d : keeps identity m → topic (self (m d)) = topic d.
Proof. intros K. specialize (K d). by injection K. Qed.

Lemma join_supported_nonempty (exts : list string) :
  forallb (λ extension, bool_decide (extension ∈ EXTENSIONS)) exts = true →
  exts ≠ [] → join "," exts ≠ "".
Proof.
  destruct exts as [|e rest]; [done|]. cbn. intros [He _]%andb_true_iff _.
  apply bool_decide_eq_true in He. unfold EXTENSIONS in He.
  assert (∃ c s, e = String c s) as (c & s & ->).
  { repeat (apply elem_of_cons in He as [->|He]; [by eexists _, _|]).
    by apply elem_of_nil in He. }
  unfold join. by destruct rest.
Qed.

(** C8.  [publish_extensions] on a device whose extensions are supported
    ones: with none declared it publishes nothing at all; otherwise it
    publishes [$extensions] exactly once, as the comma-joined list of the
    declared names (whether or not the stats and firmware publishes that
    follow succeed). *)
Theorem extensions_attribute (clk : Clock) (retain : bool) (qos : Z) (d : Device) :
  supported d = true →
  (extensions d = [] →
     publish_extensions clk retain qos d = Result [] d (Return tt)) ∧
  (extensions d ≠ [] →
     List.filter (is_publish_to (join "/" [topic d; "$extensions"]))
                 (trace (publish_extensions clk retain qos d)) =
       [Publish (join "/" [topic d; "$extensions"])
                (PStr (join "," (extensions d))) retain qos]).
Proof.
  intros Hs. unfold publish_extensions. split.
  - intros E. rewrite bind_attr; cbv beta delta [id]. by rewrite E.
  - intros Hne. rewrite bind_attr; cbv beta delta [id].
    rewrite (bool_decide_eq_true_2 _ (join_supported_nonempty _ Hs Hne)).
    rewrite !trace_bind. cbn [publish emit out trace self].
    rewrite !List.filter_app. cbn [List.filter].
    rewrite is_publish_to_same.
    assert (keeps identity
              (if bool_decide ("stats" ∈ extensions d)
               then publish_statastics clk retain qos else ret tt)) as K by walk.
    apply (keeps_topic _ d) in K.
    replace (List.filter _ (trace ((if bool_decide ("stats" ∈ extensions d)
               then publish_statastics clk retain qos else ret tt) d))) with (@nil event)
      by (case_bool_decide; [by rewrite publish_statastics_not_extensions | done]).
    destruct (out _); [|done].
    destruct (bool_decide ("firmware" ∈ extensions d)); [|done].
    set (d2 := self _) in *. by rewrite <- K, publish_firmware_not_extensions.
Qed.

Lemma extensions_attribute_witness :
  List.filter (is_publish_to "homie/kitchen-sensor/$extensions")
              (trace (publish_extensions morning true 1 kitchen)) =
    [Publish "homie/kitchen-sensor/$extensions" (PStr "stats") true 1].
Proof. apply (extensions_attribute morning true 1 kitchen); [reflexivity | discriminate]. Defined.

(** ** Publishing the attributes twice *)

(** C4, as stated, fails on a device that declares stats: the second call
    reads the clock again, so its [$stats/uptime] and [$stats/lastupdate]
    payloads differ from those of the first. *)
Lemma publish_attributes_twice_differs :
  trace (publish_attributes morning true 1 kitchen) ≠
  trace (publish_attributes noon true 1 (self (publish_attributes morning true 1 kitchen))).
Proof. vm_compute. intros H. discriminate H. Qed.

Lemma same_but_clock_refl d (tr : list event) : Forall2 (same_but_clock d) tr tr.
Proof. induction tr; constructor; [by left | done]. Qed.

Lemma publish_statastics_twice clk1 clk2 retain qos d d' :
  identity d' = identity d →
  configured d = true → "stats" ∈ extensions d → can_report d = true →
  Forall2 (same_but_clock d) (trace (publish_statastics clk1 retain qos d))
                             (trace (publish_statastics clk2 retain qos d')).
Proof.
  intros [= _ _ _ _ _ Hs Ht _ Hst _] Hc Hin Hr.
  destruct (configured_lookup d "update_interval" Hc) as [u Hu]; [set_solver|].
  destruct (can_report_started d Hr Hin) as [t0 Ht0].
  rewrite (publish_statastics_started clk1 retain qos d u t0 Hu Ht0).
  rewrite (publish_statastics_started clk2 retain qos d' u t0) by congruence.
  cbn. rewrite Ht.
  constructor; [by left|].
  constructor; [right; eexists _, _, _, _, _; eauto|].
  constructor; [right; eexists _, _, _, _, _; eauto|].
  constructor.
Qed.

Lemma publish_firmware_twice retain qos d d' :
  identity d' = identity d → configured d = true →
  trace (publish_firmware retain qos d') = trace (publish_firmware retain qos d).
Proof.
  intros [= _ _ _ _ _ Hs Ht _ _ Hm] Hc.
  destruct (publish_firmware_configured retain qos d Hc) as (n & v & i & Hn & Hv & Hi & ->).
  assert (configured d' = true) as Hc' by (unfold configured; by rewrite Hs).
  destruct (publish_firmware_configured retain qos d' Hc') as (n' & v' & i' & Hn' & Hv' & Hi' & ->).
  cbn. rewrite Hs in *. rewrite Ht, Hm. congruence.
Qed.

(** C4, amended.  Two calls of [publish_attributes()] in a row on a
    constructed device both return and both leave the state ready; they
    publish the same topics in the same order with the same retain and qos,
    and the same payloads except on [$stats/uptime] and
    [$stats/lastupdate], which carry the clock reads of each call.  The two
    outputs are therefore identical when the device does not declare stats,
    and when the clock reads coincide. *)
Theorem publish_attributes_twice (clk1 clk2 : Clock) (d : Device) :
  configured d = true → can_report d = true →
  out (publish_attributes clk1 true 1 d) = Return tt ∧
  out (publish_attributes clk2 true 1 (self (publish_attributes clk1 true 1 d))) = Return tt ∧
  _state (self (publish_attributes clk1 true 1 d)) = PStr "ready" ∧
  _state (self (publish_attributes clk2 true 1 (self (publish_attributes clk1 true 1 d))))
    = PStr "ready" ∧
  Forall2 (same_but_clock d)
    (trace (publish_attributes clk1 true 1 d))
    (trace (publish_attributes clk2 true 1 (self (publish_attributes clk1 true 1 d)))) ∧
  ("stats" ∉ extensions d ∨ clk1 = clk2 →
     trace (publish_attributes clk2 true 1 (self (publish_attributes clk1 true 1 d))) =
     trace (publish_attributes clk1 true 1 d)).
Proof.
  intros Hc Hr.
  destruct (publish_attributes_run clk1 d Hc Hr) as (v & i & Hv & Hi & ->).
  cbn [self out trace].
  destruct (publish_attributes_run clk2 (set__state (PStr "ready") d) Hc Hr)
    as (v' & i' & Hv' & Hi' & ->).
  cbn [self out trace]. cbn in Hv', Hi'.
  assert (v' = v) as -> by congruence. assert (i' = i) as -> by congruence.
  rewrite (publish_extensions_run clk1 true 1 d Hc Hr).
  rewrite (publish_extensions_run clk2 true 1 (set__state (PStr "ready") d) Hc Hr).
  cbn [self out trace]. cbn [topic name extensions set__state].
  repeat split; try done.
  - do 3 (constructor; [by left|]).
    repeat apply Forall2_app; try apply same_but_clock_refl.
    + case_bool_decide; [|constructor].
      by apply publish_statastics_twice.
    + case_bool_decide; [|constructor].
      rewrite (publish_firmware_twice true 1 d (set__state (PStr "ready") d)) by done.
      apply same_but_clock_refl.
  - intros H. do 4 f_equal. f_equal.
    + case_bool_decide as Hs; [|done]. destruct H as [H| ->]; [done|].
      destruct (configured_lookup d "update_interval" Hc) as [u Hu]; [set_solver|].
      destruct (can_report_started d Hr Hs) as [t0 Ht0].
      rewrite (publish_statastics_started clk2 true 1 d u t0 Hu Ht0).
      by rewrite (publish_statastics_started clk2 true 1 (set__state (PStr "ready") d) u t0).
    + f_equal. case_bool_decide; [|done].
      by apply publish_firmware_twice.
Qed.

Lemma publish_attributes_twice_witness :
  Forall2 (same_but_clock kitchen)
    (trace (publish_attributes morning true 1 kitchen))
    (trace (publish_attributes noon true 1 (self (publish_attributes morning true 1 kitchen)))).
Proof. apply (publish_attributes_twice morning noon kitchen); reflexivity. Defined.

(** ** The last will on a shared transport *)

Example porch_then_pump :
  let g0 := {| instance_count := 0; repeating_timer := None |} in
  let built1 := __init__ linux g0 (Some "porch-light") (Some "Sensor") None
                         shared_client ["stats"] in
  let built2 := __init__ linux built1.1 (Some "garden-pump") (Some "Sensor") None
                         shared_client [] in
  built1.2 = Return (set_start_time None porch) ∧ built2.2 = Return pump.
Proof. split; vm_compute; reflexivity. Qed.


Lemma filter_no_will (tr : list event) :
  Forall not_set_will tr → List.filter is_set_will tr = [].
Proof.
  induction 1 as [|e tr He _ IH]; [done|]. cbn. by rewrite He.
Qed.

Lemma filter_last_will d : List.filter is_set_will (last_will d) = last_will d.
Proof. unfold last_will. by destruct (negb _ || _). Qed.

(** One signal, on a constructed device: the call returns, registers the
    last will only on a connect edge, and leaves the guard as signalled. *)
Lemma connect_signal clk b d :
  configured d = true → can_report d = true →
  out (mqtt_on_connection clk b d) = Return tt ∧
  List.filter is_set_will (trace (mqtt_on_connection clk b d)) =
    (if b && negb (_mqtt_connected d) then last_will d else []) ∧
  _mqtt_connected (self (mqtt_on_connection clk b d)) = b ∧
  (instance_number (self (mqtt_on_connection clk b d)),
   extensions (self (mqtt_on_connection clk b d)),
   homie_settings (self (mqtt_on_connection clk b d)),
   topic (self (mqtt_on_connection clk b d)),
   start_time (self (mqtt_on_connection clk b d)),
   mqtt_client (self (mqtt_on_connection clk b d))) =
  (instance_number d, extensions d, homie_settings d, topic d, start_time d, mqtt_client d).
Proof.
  intros Hc Hr. destruct b; [|done].
  destruct (_mqtt_connected d) eqn:Hg.
  - by rewrite mqtt_on_connection_guarded.
  - rewrite (mqtt_on_connection_edge clk d Hg Hc Hr). cbn [out trace self andb negb].
    set (d0 := set__mqtt_connected true d).
    set (r1 := publish_attributes clk true 1 d0).
    set (r2 := publish_nodes true 1 (self r1)).
    set (r3 := subscribe_topics (self r2)).
    assert (identity (self r3) = identity d0) as K.
    { unfold r3, r2, r1.
      rewrite subscribe_topics_keeps, publish_nodes_keeps, publish_attributes_keeps. done. }
    injection K as -> -> _ _ -> -> -> _ -> ->.
    split; [done|]. split; [|done].
    rewrite !List.filter_app, filter_last_will.
    rewrite !filter_no_will; [done|..].
    + apply subscribe_topics_no_will.
    + apply publish_nodes_no_will.
    + apply publish_attributes_no_will.
Qed.




(** ** Construction *)

Lemma merge_defaults_lookup (defaults : list (string * pyval))
    (settings : gmap string pyval) (key : string) :
  foldl (λ settings '(setting, value),
           if bool_decide (is_Some (settings !! setting)) then settings
           else <[setting := value]> settings) settings defaults !! key =
  match settings !! key with
  | Some v => Some v
  | None => (list_to_map defaults : gmap string pyval) !! key
  end.
Proof.
  revert settings. induction defaults as [|[k0 v0] defaults IH]; intros settings.
  - cbn. rewrite lookup_empty. by destruct (settings !! key).
  - cbn [foldl]. rewrite IH, list_to_map_cons. case_bool_decide as Hk0.
    + destruct (settings !! key) eqn:E; [done|].
      rewrite lookup_insert_ne; [done|]. intros ->. rewrite E in Hk0. by destruct Hk0.
    + destruct (decide (k0 = key)) as [->|Hne].
      * rewrite !lookup_insert_eq. destruct (settings !! key) eqn:E; [|done].
        destruct Hk0. by eexists.
      * by rewrite !lookup_insert_ne.
Qed.

Lemma validated_lookup env settings key :
  _homie_validate_settings env settings !! key =
  match settings ≫= (.!! key) with
  | Some v => Some v
  | None => (list_to_map (HOMIE_SETTINGS env) : gmap string pyval) !! key
  end.
Proof.
  destruct settings as [settings|]; [|done].
  exact (merge_defaults_lookup (HOMIE_SETTINGS env) settings key).
Qed.

Lemma validated_configured env settings key :
  key ∈ SETTINGS → is_Some (_homie_validate_settings env settings !! key).
Proof.
  intros Hin. rewrite validated_lookup. destruct (settings ≫= _); [done|].
  unfold SETTINGS in Hin.
  repeat (apply elem_of_cons in Hin as [->|Hin]; [by eexists|]).
  by apply elem_of_nil in Hin.
Qed.

Lemma chars_app (s t : string) :
  String.list_ascii_of_string (s +:+ t) =
  String.list_ascii_of_string s ++ String.list_ascii_of_string t.
Proof. induction s as [|c s IH]; [done|]. simpl. by f_equal. Qed.

Lemma upper_not_id_char c : is_upper c = true → id_char c = false.
Proof. destruct c as [[] [] [] [] [] [] [] []]; vm_compute; done. Qed.

Lemma validate_id_upper id c :
  c ∈ String.list_ascii_of_string id → is_upper c = true → validate_id id = false.
Proof.
  intros Hin Hu%upper_not_id_char. unfold validate_id.
  destruct (forallb id_char _) eqn:E; [|done].
  rewrite forallb_forall in E. apply list_elem_of_In, E in Hin. congruence.
Qed.

Lemma validate_id_leading_hyphen s : validate_id ("-" +:+ s) = false.
Proof.
  unfold validate_id. cbn. destruct (last _); [|apply andb_false_r]. cbn.
  apply andb_false_r.
Qed.

Lemma validate_id_trailing_hyphen s : validate_id (s +:+ "-") = false.
Proof.
  unfold validate_id. rewrite chars_app. cbn. rewrite last_snoc.
  destruct (head _); cbn; by rewrite ?andb_false_r.
Qed.

(** C7.  Construction with an explicit id raises AssertionError, and so
    returns no device, whenever the id fails the identifier grammar, the
    name is missing or empty, or some extension is not a supported one;
    the empty id, an id with an uppercase letter, and an id with a leading
    or a trailing hyphen all fail the grammar.  When the id matches the
    grammar, the name is non-empty and every extension is supported,
    construction returns a device with that id, name and extensions, in
    state init, for every settings dict whose topic root is a string. *)
Theorem construction_validated (env : Env) (g : Globals) (id : string)
    (given_name : option string) (settings : option (gmap string pyval))
    (client : Transport) (exts : list string) :
  (validate_id id = false ∨ truthy given_name = false ∨
   forallb (λ extension, bool_decide (extension ∈ EXTENSIONS)) exts = false →
     (__init__ env g (Some id) given_name settings client exts).2 = Raise AssertionError) ∧
  (validate_id id = true → truthy given_name = true →
   forallb (λ extension, bool_decide (extension ∈ EXTENSIONS)) exts = true →
   topic_is_str settings = true →
     ∃ d, (__init__ env g (Some id) given_name settings client exts).2 = Return d ∧
          device_id d = id ∧ Some (name d) = given_name ∧ extensions d = exts ∧
          _state d = PStr "init" ∧ _mqtt_connected d = false ∧
          instance_number d = instance_count g + 1 ∧
          configured d = true ∧ supported d = true) ∧
  (validate_id "" = false ∧
   (∀ s, validate_id ("-" +:+ s) = false) ∧
   (∀ s, validate_id (s +:+ "-") = false) ∧
   (∀ s c, c ∈ String.list_ascii_of_string s → is_upper c = true → validate_id s = false)) ∧
  (truthy None = false ∧ truthy (Some "") = false).
Proof.
  split; [|split; [|split; [|done]]].
  - cbn. intros [-> | [H | H]]; [done| |].
    + destruct (validate_id id); [|done]. cbn. by rewrite H.
    + destruct (validate_id id); [|done]. cbn.
      destruct (truthy given_name); [|done]. cbn. by rewrite H.
  - intros Hid Hname Hexts Htopic. cbn. rewrite Hid, Hname, Hexts. cbn.
    unfold topic_is_str in Htopic. rewrite validated_lookup.
    assert (∃ root, match settings ≫= (.!! "topic") with
                    | Some v => Some v
                    | None => (list_to_map (HOMIE_SETTINGS env) : gmap string pyval) !! "topic"
                    end = Some (PStr root)) as [root ->].
    { destruct (settings ≫= _) as [[]|]; try done; by eexists. }
    eexists. split; [done|]. cbn. repeat split; try done.
    + destruct given_name; done.
    + unfold configured. cbn.
      by rewrite !bool_decide_eq_true_2 by (apply validated_configured; set_solver).
  - repeat split.
    + apply validate_id_leading_hyphen.
    + apply validate_id_trailing_hyphen.
    + apply validate_id_upper.
Qed.

Lemma construction_validated_witness :
  (__init__ linux {| instance_count := 0; repeating_timer := None |}
            (Some "Kitchen") (Some "Sensor") None own_client ["stats"]).2
    = Raise AssertionError ∧
  ∃ d, (__init__ linux {| instance_count := 0; repeating_timer := None |}
                 (Some "kitchen-sensor") (Some "Sensor") None own_client ["stats"]).2
         = Return d ∧ device_id d = "kitchen-sensor".
Proof.
  split.
  - apply construction_validated. left. reflexivity.
  - destruct (construction_validated linux {| instance_count := 0; repeating_timer := None |}
                "kitchen-sensor" (Some "Sensor") None own_client ["stats"])
      as (_ & H & _).
    destruct H as (d & E & Hid & _); [reflexivity..|].
    exists d. split; [exact E | exact Hid].
Defined.

(** ** The stats attributes *)




(** * Further properties *)

(** ** Settings *)

(** X1.  [_homie_validate_settings] merges per key: a dict given by the
    user keeps every one of its entries, also those that are no known
    setting, and gets the default for each known setting it lacks; [None]
    gives the defaults. *)
Theorem settings_merged_per_key (env : Env) (settings : gmap string pyval) :
  _homie_validate_settings env (Some settings) =
    settings ∪ list_to_map (HOMIE_SETTINGS env) ∧
  _homie_validate_settings env None = list_to_map (HOMIE_SETTINGS env).
Proof.
  split; [|done]. apply map_eq. intros key.
  rewrite (validated_lookup env (Some settings) key), lookup_union. cbn.
  destruct (settings !! key), (_ !! key); done.
Qed.

(** X2.  Validated settings hold every known setting, and validating them
    again changes nothing. *)
Theorem settings_validated_once (env : Env) (settings : option (gmap string pyval)) :
  forallb (λ key, bool_decide (is_Some (_homie_validate_settings env settings !! key)))
          SETTINGS = true ∧
  _homie_validate_settings env (Some (_homie_validate_settings env settings)) =
    _homie_validate_settings env settings.
Proof.
  split.
  - cbn. by rewrite !bool_decide_eq_true_2 by (apply validated_configured; set_solver).
  - apply map_eq. intros key.
    rewrite (validated_lookup env (Some _) key). cbn.
    destruct (_homie_validate_settings env settings !! key) eqn:E; [done|].
    rewrite validated_lookup in E. by destruct (settings ≫= _).
Qed.

(** ** The subscription registry *)

Lemma set_handlers_same d :
  set_mqtt_subscription_handlers (mqtt_subscription_handlers d) d = d.
Proof. by destruct d. Qed.

Lemma message_to_handler topic payload qos h d :
  mqtt_subscription_handlers d !! topic = Some h →
  mqtt_on_message topic payload (PBool false) qos d =
    Result [Call h topic payload] d (Return tt).
Proof. intros H. unfold mqtt_on_message. rewrite bind_attr. cbn. by rewrite H. Qed.

Lemma message_without_handler topic payload retain qos d :
  mqtt_subscription_handlers d !! topic = None →
  mqtt_on_message topic payload retain qos d = Result [] d (Return tt).
Proof. intros H. unfold mqtt_on_message. rewrite bind_attr. cbn. by rewrite H. Qed.

(** X3.  After [add_subscription(topic, handler)], a fresh message on that
    topic goes to that handler, once; subscribing the topic again replaces
    the handler (the last one wins); the handlers of all other topics are
    as before. *)
Theorem subscription_then_message (topic : string) (h h' : handler) (q q' : Z)
    (payload qos : pyval) (d : Device) :
  mqtt_on_message topic payload (PBool false) qos (self (add_subscription topic h q d)) =
    Result [Call h topic payload] (self (add_subscription topic h q d)) (Return tt) ∧
  trace (mqtt_on_message topic payload (PBool false) qos
           (self (add_subscription topic h' q' (self (add_subscription topic h q d))))) =
    [Call h' topic payload] ∧
  (∀ other, other ≠ topic →
     mqtt_subscription_handlers (self (add_subscription topic h q d)) !! other =
     mqtt_subscription_handlers d !! other).
Proof.
  rewrite !add_subscription_run. cbn [self]. repeat split.
  - apply message_to_handler. cbn. apply lookup_insert_eq.
  - rewrite (message_to_handler _ _ _ h'); [done|]. cbn. apply lookup_insert_eq.
  - intros other Hne. cbn. by apply lookup_insert_ne.
Qed.

Lemma subscription_then_message_witness :
  mqtt_subscription_handlers
    (self (add_subscription "homie/kitchen-sensor/lamp/power/set" (node_handler 7) 0
             (set_mqtt_subscription_handlers
                {["homie/kitchen-sensor/$broadcast/#" := broadcast_handler]} kitchen)))
    !! "homie/kitchen-sensor/$broadcast/#" = Some broadcast_handler.
Proof.
  destruct (subscription_then_message "homie/kitchen-sensor/lamp/power/set"
              (node_handler 7) (node_handler 7) 0 0 PNone PNone
              (set_mqtt_subscription_handlers
                 {["homie/kitchen-sensor/$broadcast/#" := broadcast_handler]} kitchen))
    as (_ & _ & H).
  rewrite H; [reflexivity | discriminate].
Defined.

(** X4.  [remove_subscription(topic)] for a subscribed topic: one
    unsubscribe call, no exception, the mapping is gone, so that a later
    message on the topic is ignored, and the other topics keep their
    handlers. *)
Theorem remove_subscription_present (topic : string) (h : handler) (d : Device) :
  mqtt_subscription_handlers d !! topic = Some h →
  remove_subscription topic d =
    Result [Unsubscribe topic]
           (set_mqtt_subscription_handlers (delete topic (mqtt_subscription_handlers d)) d)
           (Return tt) ∧
  (∀ payload retain qos,
     trace (mqtt_on_message topic payload retain qos (self (remove_subscription topic d)))
       = []) ∧
  (∀ other, other ≠ topic →
     mqtt_subscription_handlers (self (remove_subscription topic d)) !! other =
     mqtt_subscription_handlers d !! other).
Proof.
  intros H.
  assert (remove_subscription topic d =
          Result [Unsubscribe topic]
            (set_mqtt_subscription_handlers (delete topic (mqtt_subscription_handlers d)) d)
            (Return tt)) as ->.
  { unfold remove_subscription. run. by rewrite H. }
  cbn [self]. repeat split.
  - intros payload retain qos. rewrite message_without_handler; [done|].
    cbn. apply lookup_delete_eq.
  - intros other Hne. cbn. by apply lookup_delete_ne.
Qed.

Lemma remove_subscription_present_witness :
  remove_subscription "homie/kitchen-sensor/$broadcast/#"
    (set_mqtt_subscription_handlers
       {["homie/kitchen-sensor/$broadcast/#" := broadcast_handler]} kitchen) =
  Result [Unsubscribe "homie/kitchen-sensor/$broadcast/#"]
    (set_mqtt_subscription_handlers
       (delete "homie/kitchen-sensor/$broadcast/#"
          {["homie/kitchen-sensor/$broadcast/#" := broadcast_handler]}) kitchen)
    (Return tt).
Proof.
  destruct (remove_subscription_present "homie/kitchen-sensor/$broadcast/#" broadcast_handler
              (set_mqtt_subscription_handlers
                 {["homie/kitchen-sensor/$broadcast/#" := broadcast_handler]} kitchen))
    as [E _]; [reflexivity|].
  rewrite E. reflexivity.
Defined.

(** X5.  Subscribing a topic that was not subscribed and removing it again
    gives the device back exactly as it was, after one subscribe and one
    unsubscribe call. *)
Theorem subscribe_then_remove (topic : string) (h : handler) (q : Z) (d : Device) :
  mqtt_subscription_handlers d !! topic = None →
  bind (add_subscription topic h q) (λ _, remove_subscription topic) d =
    Result [Subscribe topic q; Unsubscribe topic] d (Return tt).
Proof.
  intros H. rewrite bind_run, add_subscription_run. cbn [out trace self].
  unfold remove_subscription. run. rewrite lookup_insert_eq. cbn.
  rewrite delete_insert_eq, delete_id by done. by destruct d.
Qed.

Lemma subscribe_then_remove_witness :
  bind (add_subscription "homie/kitchen-sensor/lamp/power/set" (node_handler 7) 0)
       (λ _, remove_subscription "homie/kitchen-sensor/lamp/power/set") kitchen =
  Result [Subscribe "homie/kitchen-sensor/lamp/power/set" 0;
          Unsubscribe "homie/kitchen-sensor/lamp/power/set"] kitchen (Return tt).
Proof. apply subscribe_then_remove. reflexivity. Defined.

Lemma register_union (subs : list (string * handler)) (hs : gmap string handler) :
  register hs subs = list_to_map (reverse subs) ∪ hs.
Proof.
  revert hs. induction subs as [|[t h] subs IH]; intros hs.
  - cbn. by rewrite (left_id_L ∅ (∪)).
  - cbn [register foldl]. fold (register (<[t:=h]> hs) subs). rewrite IH.
    rewrite reverse_cons, list_to_map_app. cbn.
    rewrite <- (assoc_L (∪)). f_equal.
    by rewrite insert_union_singleton_l, insert_empty.
Qed.

(** X6.  [subscribe_topics] never raises; it makes one subscribe call, at
    qos 0, for the broadcast wildcard and then for every topic of every
    node's subscriptions, in registry order; and the registry afterwards
    is the old one overridden by those pairs, a later pair overriding an
    earlier one for the same topic.  So every one of those topics has a
    handler afterwards. *)
Theorem subscribe_topics_registry (d : Device) :
  subscribe_topics d =
    Result (subscribe_event <$> subscriptions d)
           (set_mqtt_subscription_handlers
              (list_to_map (reverse (subscriptions d)) ∪ mqtt_subscription_handlers d) d)
           (Return tt) ∧
  Forall (λ s, is_Some (mqtt_subscription_handlers (self (subscribe_topics d)) !! s.1))
         (subscriptions d).
Proof.
  rewrite subscribe_topics_run, register_union. split; [done|].
  generalize (subscriptions d). intros subs.
  cbn [self]. apply Forall_forall. intros [t h] Hin. cbn.
  apply lookup_union_is_Some. left.
  apply elem_of_dom. rewrite dom_list_to_map_L. apply elem_of_list_to_set.
  apply list_elem_of_fmap. exists (t, h). split; [done|]. by apply elem_of_reverse.
Qed.

(** X7.  Handlers are found by the exact topic string.  On a device
    without nodes and with an empty registry, [subscribe_topics] registers
    the broadcast handler under the wildcard pattern itself, so a message
    on any other topic, a concrete broadcast topic included, reaches no
    handler. *)
Theorem broadcast_wildcard_is_literal (t : string) (payload retain qos : pyval)
    (d : Device) :
  nodes d = [] → mqtt_subscription_handlers d = ∅ →
  t ≠ join "/" [topic d; "$broadcast/#"] →
  mqtt_on_message t payload retain qos (self (subscribe_topics d)) =
    Result [] (self (subscribe_topics d)) (Return tt).
Proof.
  intros Hn He Hne. apply message_without_handler.
  rewrite subscribe_topics_run. cbn [self]. unfold subscriptions. rewrite Hn, He. cbn.
  rewrite lookup_insert_ne by done. apply lookup_empty.
Qed.

Lemma broadcast_wildcard_is_literal_witness :
  trace (mqtt_on_message "homie/kitchen-sensor/$broadcast/alert" (PStr "fire")
           (PBool false) (PInt 0) (self (subscribe_topics kitchen))) = [].
Proof.
  rewrite (broadcast_wildcard_is_literal "homie/kitchen-sensor/$broadcast/alert");
    [reflexivity | reflexivity | reflexivity | discriminate].
Defined.

(** ** Publishing *)

(** X8.  [publish_uptime] needs [start()]: before it, the subtraction
    raises TypeError and nothing is published; after it, exactly the uptime
    and the last update are published.  [publish_statastics] is the
    interval followed by what [publish_uptime] does. *)
Theorem publish_uptime_needs_start (clk : Clock) (retain : bool) (qos : Z) (d : Device) :
  (start_time d = None →
     publish_uptime clk retain qos d = Result [] d (Raise TypeError)) ∧
  (∀ t0, start_time d = Some t0 →
     publish_uptime clk retain qos d =
       Result [ Publish (join "/" [topic d; "$stats/uptime"])
                        (PFloat (PrimFloat.sub (time_time clk) t0)) retain qos;
                Publish (join "/" [topic d; "$stats/lastupdate"])
                        (PStr (strftime (datetime_now clk))) retain qos ]
              d (Return tt)) ∧
  (∀ seconds, homie_settings d !! "update_interval" = Some seconds →
     trace (publish_statastics clk retain qos d) =
       Publish (join "/" [topic d; "$stats/interval"]) seconds retain qos
         :: trace (publish_uptime clk retain qos d) ∧
     out (publish_statastics clk retain qos d) = out (publish_uptime clk retain qos d)).
Proof.
  unfold publish_uptime, publish_statastics, uptime. repeat split.
  - intros H. run. by rewrite H.
  - intros t0 H. run. by rewrite H.
  - run. rewrite H. cbn. by destruct (start_time d).
  - run. rewrite H. cbn. by destruct (start_time d).
Qed.

Lemma publish_uptime_needs_start_witness :
  publish_uptime morning true 1 (set_start_time None kitchen) =
    Result [] (set_start_time None kitchen) (Raise TypeError) ∧
  trace (publish_uptime morning true 1 kitchen) =
    [ Publish "homie/kitchen-sensor/$stats/uptime" (PFloat 10.5) true 1;
      Publish "homie/kitchen-sensor/$stats/lastupdate" (PStr "07/03/2024 09:05:00") true 1 ].
Proof.
  split.
  - apply publish_uptime_needs_start. reflexivity.
  - destruct (publish_uptime_needs_start morning true 1 kitchen) as (_ & H & _).
    rewrite (H 990%float); reflexivity.
Defined.

(** X9.  Publishing, dispatching a message and looking a node up never
    change the device, whether they return or raise. *)
Theorem publishing_never_mutates (clk : Clock) (retain : bool) (qos : Z)
    (t node_id : string) (payload r q : pyval) (d : Device) :
  self (publish t payload retain qos d) = d ∧
  self (publish_statastics clk retain qos d) = d ∧
  self (publish_uptime clk retain qos d) = d ∧
  self (publish_firmware retain qos d) = d ∧
  self (publish_extensions clk retain qos d) = d ∧
  self (mqtt_on_message t payload r q d) = d ∧
  self (get_node node_id d) = d.
Proof.
  assert (keeps (λ d, d) (publish_statastics clk retain qos)) as Hs
    by (unfold publish_statastics, uptime; walk).
  assert (keeps (λ d, d) (publish_firmware retain qos)) as Hf
    by (unfold publish_firmware; walk).
  repeat split.
  - apply Hs.
  - assert (keeps (λ d, d) (publish_uptime clk retain qos)) as H
      by (unfold publish_uptime, uptime; walk). apply H.
  - apply Hf.
  - assert (keeps (λ d, d) (publish_extensions clk retain qos)) as H
      by (unfold publish_extensions; walk). apply H.
  - assert (keeps (λ d, d) (mqtt_on_message t payload r q)) as H
      by (unfold mqtt_on_message; walk). apply H.
Qed.

Lemma append_nonempty_r (s t : string) : t ≠ "" → s +:+ t ≠ "".
Proof. by destruct s, t. Qed.

Lemma join_nonempty (e : string) (exts : list string) :
  e ∈ exts → e ≠ "" → join "," exts ≠ "".
Proof.
  destruct exts as [|e1 [|e2 rest]]; intros Hin Hne.
  - by apply elem_of_nil in Hin.
  - apply list_elem_of_singleton in Hin as <-. done.
  - unfold join. fold (join "," (e2 :: rest)). apply append_nonempty_r. done.
Qed.

(** X10.  A connect signal that reaches a device which declares stats
    before [start()] was called: the attributes up to [$stats/interval]
    are published, then the uptime subtraction raises TypeError.  The guard
    is already set and everything else is as it was: the state is not
    ready, no node is published, nothing is subscribed, no last will is
    registered.  A further connect signal does not try again. *)
Theorem connect_before_start (clk clk' : Clock) (d : Device) :
  _mqtt_connected d = false → configured d = true →
  "stats" ∈ extensions d → start_time d = None →
  ∃ version implementation seconds,
    homie_settings d !! "version" = Some version ∧
    homie_settings d !! "implementation" = Some implementation ∧
    homie_settings d !! "update_interval" = Some seconds ∧
    mqtt_on_connection clk true d =
      Result [ Publish (join "/" [topic d; "$homie"]) version true 1;
               Publish (join "/" [topic d; "$name"]) (PStr (name d)) true 1;
               Publish (join "/" [topic d; "$implementation"]) implementation true 1;
               Publish (join "/" [topic d; "$extensions"])
                       (PStr (join "," (extensions d))) true 1;
               Publish (join "/" [topic d; "$stats/interval"]) seconds true 1 ]
             (set__mqtt_connected true d) (Raise TypeError) ∧
    mqtt_on_connection clk' true (set__mqtt_connected true d) =
      Result [] (set__mqtt_connected true d) (Return tt).
Proof.
  intros Hg Hc Hs Ht.
  destruct (configured_lookup d "version" Hc) as [v Hv]; [set_solver|].
  destruct (configured_lookup d "implementation" Hc) as [i Hi]; [set_solver|].
  destruct (configured_lookup d "update_interval" Hc) as [u Hu]; [set_solver|].
  exists v, i, u. repeat split; try done.
  unfold mqtt_on_connection. rewrite bind_attr; cbv beta delta [id]. rewrite Hg.
  cbv beta iota delta [negb]. rewrite bind_assign.
  set (d0 := set__mqtt_connected true d).
  assert (publish_extensions clk true 1 d0 =
          Result [ Publish (join "/" [topic d; "$extensions"])
                           (PStr (join "," (extensions d))) true 1;
                   Publish (join "/" [topic d; "$stats/interval"]) u true 1 ]
                 d0 (Raise TypeError)) as Hext.
  { unfold publish_extensions. rewrite bind_attr; cbv beta delta [id].
    change (extensions d0) with (extensions d).
    assert (join "," (extensions d) ≠ "") as Hj
      by (apply (join_nonempty "stats"); [done | discriminate]).
    rewrite (bool_decide_eq_true_2 _ Hj).
    rewrite (bool_decide_eq_true_2 _ Hs).
    rewrite bind_run. cbn [publish emit out trace self].
    rewrite bind_run, (publish_statastics_unstarted clk true 1 d0 u) by done.
    done. }
  rewrite bind_run.
  assert (publish_attributes clk true 1 d0 =
          Result [ Publish (join "/" [topic d; "$homie"]) v true 1;
                   Publish (join "/" [topic d; "$name"]) (PStr (name d)) true 1;
                   Publish (join "/" [topic d; "$implementation"]) i true 1;
                   Publish (join "/" [topic d; "$extensions"])
                           (PStr (join "," (extensions d))) true 1;
                   Publish (join "/" [topic d; "$stats/interval"]) u true 1 ]
                 d0 (Raise TypeError)) as ->; [|done].
  unfold publish_attributes. run. rewrite Hv. cbn. rewrite Hi. cbn.
  fold d0. by rewrite Hext.
Qed.

Lemma connect_before_start_witness :
  out (mqtt_on_connection morning true (set_start_time None kitchen)) = Raise TypeError ∧
  _state (self (mqtt_on_connection morning true (set_start_time None kitchen))) = PStr "init".
Proof.
  destruct (connect_before_start morning noon (set_start_time None kitchen))
    as (v & i & u & _ & _ & _ & E & _); [reflexivity | reflexivity | | reflexivity |].
  - cbn. constructor.
  - rewrite E. split; reflexivity.
Defined.

(** ** Starting a device *)

Lemma started_can_report t0 d : can_report (set_start_time (Some t0) d) = true.
Proof. unfold can_report. cbn. by destruct (bool_decide _). Qed.

(** The device side of [start()]: either the timer could not be set up,
    and nothing else was done, or the device goes on as the transport's
    connection state tells. *)
Lemma start_device timers t0 clk g d :
  (start timers t0 clk g d).2 =
    (if mqtt_connected (mqtt_client d)
     then mqtt_on_connection clk true (set_start_time (Some t0) d)
     else Result [] (set_start_time (Some t0) d) (Return tt)) ∨
  "stats" ∈ extensions d ∧
  ∃ e, (start timers t0 clk g d).2 = Result [] (set_start_time (Some t0) d) (Raise e).
Proof.
  unfold start. cbn [extensions set_start_time homie_settings mqtt_client instance_number].
  case_bool_decide as Hs; [|left; by destruct (mqtt_connected _)].
  destruct (repeating_timer g) as [timer|].
  - destruct (add_callback timers _ timer); [left; by destruct (mqtt_connected _)|].
    right. split; [done | by eexists].
  - destruct (homie_settings d !! "update_interval") as [seconds|];
      [|right; split; [done | by eexists]].
    destruct (new_timer timers seconds) as [timer|]; [|right; split; [done | by eexists]].
    destruct (add_callback timers _ timer); [left; by destruct (mqtt_connected _)|].
    right. split; [done | by eexists].
Qed.

(** X11.  [start()] records the start time before anything else, so the
    stats can be reported from then on, whether or not it raises.  On a
    constructed device it can raise only while it sets the timer up, which
    it does only for a device that declares stats, and then it has made no
    call to the transport.  When it returns, it has made no call if the
    transport is not connected, and otherwise has done exactly what a
    connect signal does on the started device. *)
Theorem start_then_ready (timers : Timers) (t0 : float) (clk : Clock) (g : Globals)
    (d : Device) :
  configured d = true →
  start_time (self (start timers t0 clk g d).2) = Some t0 ∧
  can_report (self (start timers t0 clk g d).2) = true ∧
  (∀ e, out (start timers t0 clk g d).2 = Raise e →
     "stats" ∈ extensions d ∧
     (start timers t0 clk g d).2 = Result [] (set_start_time (Some t0) d) (Raise e)) ∧
  ("stats" ∉ extensions d → out (start timers t0 clk g d).2 = Return tt) ∧
  (out (start timers t0 clk g d).2 = Return tt →
     (start timers t0 clk g d).2 =
       (if mqtt_connected (mqtt_client d)
        then mqtt_on_connection clk true (set_start_time (Some t0) d)
        else Result [] (set_start_time (Some t0) d) (Return tt))).
Proof.
  intros Hc.
  destruct (connect_signal clk true (set_start_time (Some t0) d) Hc (started_can_report t0 d))
    as (Ho & _ & _ & [= _ He _ _ Hst _]).
  assert (out (if mqtt_connected (mqtt_client d)
               then mqtt_on_connection clk true (set_start_time (Some t0) d)
               else Result [] (set_start_time (Some t0) d) (Return tt)) = Return tt) as Hret
    by (by destruct (mqtt_connected _)).
  assert (start_time (self (if mqtt_connected (mqtt_client d)
               then mqtt_on_connection clk true (set_start_time (Some t0) d)
               else Result [] (set_start_time (Some t0) d) (Return tt))) = Some t0 ∧
          can_report (self (if mqtt_connected (mqtt_client d)
               then mqtt_on_connection clk true (set_start_time (Some t0) d)
               else Result [] (set_start_time (Some t0) d) (Return tt))) = true) as [Hs Hr].
  { destruct (mqtt_connected _); [|split; [done | apply started_can_report]].
    split; [done|]. unfold can_report. rewrite He, Hst. apply started_can_report. }
  destruct (start_device timers t0 clk g d) as [E | [Hin [e E]]]; rewrite E.
  - split; [done|]. split; [done|].
    split; [intros e' He'; by rewrite Hret in He'|]. by split.
  - split; [done|]. split; [apply started_can_report|].
    split; [by intros e' [= ->]|]. split; [done | by intros [=]].
Qed.

Lemma start_then_ready_witness :
  (start plain_timers 990 morning {| instance_count := 1; repeating_timer := None |}
         (set_start_time None kitchen)).2 =
    Result [] kitchen (Return tt) ∧
  start_time (self (start plain_timers 990 morning
                          {| instance_count := 1; repeating_timer := None |}
                          (set_start_time None kitchen)).2) = Some 990%float.
Proof.
  destruct (start_then_ready plain_timers 990 morning
              {| instance_count := 1; repeating_timer := None |}
              (set_start_time None kitchen)) as (Ht & _ & _ & _ & E); [reflexivity|].
  split; [|exact Ht]. rewrite E; reflexivity.
Defined.

(** X12.  The timer is made once, from the update interval of the device
    that is started first: when two devices that declare stats are started
    one after the other from a state without timer, and the timer class
    raises nothing, the module's timer is the one its constructor made of
    the first device's interval, with the callbacks of both devices added
    in start order; the interval of the second device is not used.  When
    the constructor raises, no timer is kept.  A device that does not
    declare stats leaves the timer and the instance counter alone. *)
Theorem timer_made_by_first (timers : Timers) (t1 t2 : float) (clk1 clk2 : Clock)
    (g : Globals) (d1 d2 : Device) (seconds : pyval) :
  repeating_timer g = None →
  "stats" ∈ extensions d1 →
  homie_settings d1 !! "update_interval" = Some seconds →
  (∀ made first both,
     "stats" ∈ extensions d2 →
     new_timer timers seconds = Return made →
     add_callback timers (instance_number d1) made = Return first →
     add_callback timers (instance_number d2) first = Return both →
     (start timers t2 clk2 (start timers t1 clk1 g d1).1 d2).1 =
       {| instance_count := instance_count g; repeating_timer := Some both |}) ∧
  (∀ e, new_timer timers seconds = Raise e → (start timers t1 clk1 g d1).1 = g) ∧
  (∀ t0 clk g' d, "stats" ∉ extensions d → (start timers t0 clk g' d).1 = g').
Proof.
  intros Hg H1 Hu. repeat split.
  - intros made first both H2 Hnew Hadd1 Hadd2. unfold start.
    cbn [extensions set_start_time homie_settings instance_number].
    rewrite (bool_decide_eq_true_2 _ H1), (bool_decide_eq_true_2 _ H2), Hg, Hu, Hnew, Hadd1.
    cbn. by rewrite Hadd2.
  - intros e Hnew. unfold start.
    cbn [extensions set_start_time homie_settings instance_number].
    by rewrite (bool_decide_eq_true_2 _ H1), Hg, Hu, Hnew.
  - intros t0 clk g' d H. unfold start. cbn [extensions set_start_time].
    by rewrite (bool_decide_eq_false_2 _ H).
Qed.

Lemma timer_made_by_first_witness :
  (start plain_timers 995 noon
     (start plain_timers 990 morning {| instance_count := 2; repeating_timer := None |}
            porch).1
     (sample 2 "hall-light" shared_client ["stats"] None)).1 =
  {| instance_count := 2;
     repeating_timer := Some {| interval := PInt 54; callbacks := [1; 2] |} |}.
Proof.
  destruct (timer_made_by_first plain_timers 990 995 morning noon
              {| instance_count := 2; repeating_timer := None |} porch
              (sample 2 "hall-light" shared_client ["stats"] None) (PInt 60)) as [H _];
    [reflexivity | cbn; constructor | reflexivity |].
  apply (H {| interval := PInt 54; callbacks := [] |}
           {| interval := PInt 54; callbacks := [1] |});
    [cbn; constructor | reflexivity..].
Defined.

(** ** What holds through any use of a device *)

Section invariants.
Context (I : Device → Prop).

Lemma preserves_ret {A} (a : A) : preserves I (ret a).
Proof. by intros d. Qed.

Lemma preserves_raise {A} e : preserves I (raise (A:=A) e).
Proof. by intros d. Qed.

Lemma preserves_emit e : preserves I (emit e).
Proof. by intros d. Qed.

Lemma preserves_attr {A} (g : Device → A) : preserves I (attr g).
Proof. by intros d. Qed.

Lemma preserves_assign g : (∀ d, I d → I (g d)) → preserves I (assign g).
Proof. intros H d. apply H. Qed.

Lemma preserves_bind {A B} (m : M A) (k : A → M B) :
  preserves I m → (∀ a, preserves I (k a)) → preserves I (bind m k).
Proof.
  intros Hm Hk d Hd. rewrite bind_run. specialize (Hm d Hd).
  destruct (out (m d)) as [a|e]; cbn; [|done].
  by apply Hk.
Qed.

Lemma preserves_for_each {A} (xs : list A) (body : A → M unit) :
  (∀ x, preserves I (body x)) → preserves I (for_each xs body).
Proof.
  intros H. induction xs as [|x xs IH]; [apply preserves_ret|].
  cbn. apply preserves_bind; [apply H | intros _; apply IH].
Qed.

End invariants.

Lemma keeps_preserves {A B} (f : Device → B) (I : Device → Prop) (m : M A) :
  (∀ d d', f d' = f d → I d → I d') → keeps f m → preserves I m.
Proof. intros H K d. apply H, K. Qed.

(** Walks a method body for an invariant; assignments are left to [tac]. *)
Ltac walk_invariant tac :=
  repeat first
    [ solve [auto with device]
    | apply preserves_bind
    | apply preserves_for_each
    | apply preserves_ret
    | apply preserves_raise
    | apply preserves_attr
    | apply preserves_emit
    | apply preserves_assign; solve [tac]
    | progress unfold getitem, publish
    | match goal with
      | |- preserves _ (match ?x with _ => _ end) => destruct x eqn:?
      | |- ∀ _, _ => intros ?
      | |- preserves _ ((λ _, _) _) => cbv beta
      end ].

Lemma preserves_reading (I : Device → Prop) {A} (k : Device → M A) :
  (∀ d, I d → I (self (k d d))) → preserves I (bind (attr id) k).
Proof. intros H d Hd. rewrite bind_attr. by apply H. Qed.

(** The invariant rule of the class: a property that each kind of
    assignment made by the methods keeps is kept by every method. *)
Section class_invariant.
Context (I : Device → Prop).
Context (I_connected : ∀ v d, I d → I (set__mqtt_connected v d)).
Context (I_state : ∀ v d, py_in v DEVICE_STATES = true → I d → I (set__state v d)).
Context (I_start_time : ∀ t0 d, I d → I (set_start_time (Some t0) d)).
Context (I_nodes_published : ∀ d, I d → I (set_nodes_published true d)).
Context (I_handlers : ∀ v d, I d → I (set_mqtt_subscription_handlers v d)).
Context (I_add : ∀ key node d, I d → I (set_nodes (dict_set key node (nodes d)) d)).
Context (I_del : ∀ key d, I d → I (set_nodes (dict_del key (nodes d)) d)).

Lemma state_setter_preserves state retain qos : preserves I (state_setter state retain qos).
Proof.
  unfold state_setter. destruct (py_in state DEVICE_STATES) eqn:E.
  - walk_invariant ltac:(intros; auto).
  - walk_invariant idtac.
Qed.

Lemma publish_statastics_preserves clk retain qos :
  preserves I (publish_statastics clk retain qos).
Proof. unfold publish_statastics, uptime. walk_invariant idtac. Qed.

Lemma publish_uptime_preserves clk retain qos : preserves I (publish_uptime clk retain qos).
Proof. unfold publish_uptime, uptime. walk_invariant idtac. Qed.

Lemma publish_firmware_preserves retain qos : preserves I (publish_firmware retain qos).
Proof. unfold publish_firmware. walk_invariant idtac. Qed.

#[local] Hint Resolve state_setter_preserves publish_statastics_preserves
  publish_uptime_preserves publish_firmware_preserves : device.

Lemma publish_extensions_preserves clk retain qos :
  preserves I (publish_extensions clk retain qos).
Proof. unfold publish_extensions. walk_invariant idtac. Qed.

#[local] Hint Resolve publish_extensions_preserves : device.

Lemma publish_attributes_preserves clk retain qos :
  preserves I (publish_attributes clk retain qos).
Proof. unfold publish_attributes, assign_state. walk_invariant idtac. Qed.

Lemma publish_nodes_preserves retain qos : preserves I (publish_nodes retain qos).
Proof. unfold publish_nodes, publish_node. walk_invariant ltac:(intros; auto). Qed.

Lemma add_subscription_preserves t h q : preserves I (add_subscription t h q).
Proof. unfold add_subscription. walk_invariant ltac:(intros; auto). Qed.

Lemma remove_subscription_preserves t : preserves I (remove_subscription t).
Proof. unfold remove_subscription. walk_invariant ltac:(intros; auto). Qed.

#[local] Hint Resolve publish_attributes_preserves publish_nodes_preserves
  add_subscription_preserves remove_subscription_preserves : device.

Lemma subscribe_topics_preserves : preserves I subscribe_topics.
Proof. unfold subscribe_topics. walk_invariant idtac. Qed.

#[local] Hint Resolve subscribe_topics_preserves : device.

Lemma add_node_preserves node_id node : preserves I (add_node node_id node).
Proof.
  unfold add_node. apply preserves_reading. intros d Hd. rewrite bind_assign.
  assert (preserves I (bind (attr id) (λ d, if nodes_published d
            then publish_nodes (retained d) (qos d) else ret tt))) as H
    by walk_invariant idtac.
  apply H. by apply I_add.
Qed.

Lemma remove_node_preserves node_id : preserves I (remove_node node_id).
Proof.
  unfold remove_node. apply preserves_reading. intros d Hd.
  destruct (dict_get node_id (nodes d)).
  - rewrite bind_assign.
    assert (preserves I (bind (attr id) (λ d, if nodes_published d
              then publish_nodes false 1 else ret tt))) as H
      by walk_invariant idtac.
    apply H. by apply I_del.
  - done.
Qed.

Lemma get_node_preserves node_id : preserves I (get_node node_id).
Proof. unfold get_node. walk_invariant idtac. Qed.

Lemma mqtt_on_connection_preserves clk connected :
  preserves I (mqtt_on_connection clk connected).
Proof. unfold mqtt_on_connection. walk_invariant ltac:(intros; auto). Qed.

Lemma mqtt_on_message_preserves t payload retain qos :
  preserves I (mqtt_on_message t payload retain qos).
Proof. unfold mqtt_on_message. walk_invariant idtac. Qed.

Lemma start_preserves timers t0 clk g : preserves I (λ d, (start timers t0 clk g d).2).
Proof.
  intros d Hd.
  assert (I (set_start_time (Some t0) d)) as H0 by (by apply I_start_time).
  destruct (start_device timers t0 clk g d) as [-> | [_ [e ->]]]; [|done].
  destruct (mqtt_connected (mqtt_client d)); [|done].
  by apply mqtt_on_connection_preserves.
Qed.

Lemma perform_preserves c : preserves I (perform c).
Proof.
  destruct c; cbn [perform].
  - apply start_preserves.
  - apply state_setter_preserves.
  - apply state_setter_preserves.
  - apply publish_attributes_preserves.
  - apply publish_extensions_preserves.
  - apply publish_firmware_preserves.
  - apply publish_statastics_preserves.
  - apply publish_uptime_preserves.
  - apply add_subscription_preserves.
  - apply remove_subscription_preserves.
  - apply subscribe_topics_preserves.
  - apply add_node_preserves.
  - apply remove_node_preserves.
  - apply preserves_bind; [apply get_node_preserves | intros ?; apply preserves_ret].
  - apply publish_nodes_preserves.
  - apply mqtt_on_connection_preserves.
  - apply mqtt_on_message_preserves.
Qed.

Lemma after_preserves calls d : I d → I (after calls d).
Proof.
  revert d. induction calls as [|c calls IH]; intros d Hd; [done|].
  cbn. apply IH. by apply perform_preserves.
Qed.

End class_invariant.

(** X13.  Nothing a device is ever asked to do changes what the
    constructor fixed: after any sequence of calls, whether or not some of
    them raised, the instance number, device id, name, extensions,
    settings, topic, default retain and qos, and the transport client are
    the same. *)
Theorem constants_never_change (calls : list call) (d : Device) :
  constants (after calls d) = constants d.
Proof.
  apply (after_preserves (λ d', constants d' = constants d)); try done.
Qed.

(** X14.  The state of a device is always one of the enumeration: if it
    is before a sequence of calls, it is after it. *)
Theorem state_always_enumerated (calls : list call) (d : Device) :
  py_in (_state d) DEVICE_STATES = true →
  py_in (_state (after calls d)) DEVICE_STATES = true.
Proof.
  apply (after_preserves (λ d', py_in (_state d') DEVICE_STATES = true)); try done.
Qed.

Lemma state_always_enumerated_witness :
  py_in (_state (after [Assign_state (PStr "asleep"); Mqtt_on_connection morning true;
                        Assign_state (PInt 3); Cleanup] kitchen)) DEVICE_STATES = true.
Proof. apply state_always_enumerated. reflexivity. Defined.

(** X15.  Two latches: once the nodes have been published, and once the
    device has been started, no call undoes it. *)
Theorem latches_stay_set (calls : list call) (d : Device) :
  (nodes_published d = true → nodes_published (after calls d) = true) ∧
  (is_Some (start_time d) → is_Some (start_time (after calls d))).
Proof.
  split.
  - apply (after_preserves (λ d', nodes_published d' = true)); done.
  - apply (after_preserves (λ d', is_Some (start_time d'))); done.
Qed.

Lemma latches_stay_set_witness :
  is_Some (start_time (after [Mqtt_on_connection morning true; Remove_node "lamp";
                              Mqtt_on_connection noon false] kitchen)).
Proof.
  apply (latches_stay_set [Mqtt_on_connection morning true; Remove_node "lamp";
                           Mqtt_on_connection noon false] kitchen).
  by eexists.
Defined.

(** ** Who registers a last will *)

Lemma Forall_trace_bind {A B} (P : event → Prop) (m : M A) (k : A → M B) d :
  Forall P (trace (m d)) → (∀ a, Forall P (trace (k a (self (m d))))) →
  Forall P (trace (bind m k d)).
Proof.
  intros Hm Hk. rewrite trace_bind. apply Forall_app. split; [done|].
  destruct (out (m d)); [apply Hk | constructor].
Qed.

Lemma mqtt_on_connection_no_will clk connected d :
  using_shared_mqtt_client (mqtt_client d) = true → (instance_number d =? 1) = false →
  Forall not_set_will (trace (mqtt_on_connection clk connected d)).
Proof.
  intros Hs Hi. unfold mqtt_on_connection. destruct connected; [|constructor].
  rewrite bind_attr; cbv beta delta [id].
  destruct (_mqtt_connected d); cbv beta iota delta [negb]; [constructor|].
  rewrite bind_assign.
  apply Forall_trace_bind; [apply publish_attributes_no_will|]. intros _.
  apply Forall_trace_bind; [apply publish_nodes_no_will|]. intros _.
  apply Forall_trace_bind; [apply subscribe_topics_no_will|]. intros _.
  rewrite bind_attr; cbv beta delta [id].
  match goal with |- context [mqtt_client ?d3] =>
    assert (identity d3 = identity (set__mqtt_connected true d)) as K
      by (by rewrite subscribe_topics_keeps, publish_nodes_keeps, publish_attributes_keeps);
    injection K as -> _ _ _ _ _ _ _ _ ->
  end.
  cbn [instance_number mqtt_client set__mqtt_connected]. rewrite Hs, Hi. constructor.
Qed.

Ltac by_footprint tac :=
  match goal with
  | |- Forall _ (trace (?m _)) =>
      let H := fresh in
      assert (emits not_set_will m) as H by (tac; walk; done); apply H
  end.

Lemma perform_no_will c d :
  using_shared_mqtt_client (mqtt_client d) = true → (instance_number d =? 1) = false →
  Forall not_set_will (trace (perform c d)).
Proof.
  intros Hs Hi. destruct c; cbn [perform].
  - destruct (start_device timers t0 clk g d) as [-> | [_ [e ->]]]; [|constructor].
    destruct (mqtt_connected (mqtt_client d)); [|constructor].
    by apply mqtt_on_connection_no_will.
  - apply state_setter_no_will.
  - apply state_setter_no_will.
  - apply publish_attributes_no_will.
  - apply publish_extensions_no_will.
  - apply publish_firmware_no_will.
  - apply publish_statastics_no_will.
  - by_footprint ltac:(unfold publish_uptime, uptime).
  - apply add_subscription_no_will.
  - by_footprint ltac:(unfold remove_subscription).
  - apply subscribe_topics_no_will.
  - by_footprint ltac:(unfold add_node).
  - by_footprint ltac:(unfold remove_node).
  - by_footprint ltac:(unfold get_node).
  - apply publish_nodes_no_will.
  - by apply mqtt_on_connection_no_will.
  - by_footprint ltac:(unfold mqtt_on_message).
Qed.

Lemma history_no_will (calls : list call) (d : Device) :
  using_shared_mqtt_client (mqtt_client d) = true → (instance_number d =? 1) = false →
  Forall not_set_will (history calls d).
Proof.
  revert d. induction calls as [|c calls IH]; intros d Hs Hi; [constructor|].
  cbn [history]. apply Forall_app. split; [by apply perform_no_will|].
  assert (constants (self (perform c d)) = constants d) as [= E _ _ _ _ _ _ _ Em]
    by (by apply (perform_preserves (λ d', constants d' = constants d))).
  apply IH; congruence.
Qed.

(** X16.  A device on a shared transport that is not the first instance
    never registers a last will: whatever sequence of calls it gets, in
    whatever state, and whether or not calls raise, no [set_will] is among
    the calls it makes. *)
Theorem later_instance_never_registers_will (calls : list call) (d : Device) :
  using_shared_mqtt_client (mqtt_client d) = true → (instance_number d =? 1) = false →
  Forall not_set_will (history calls d) ∧
  count is_set_will (history calls d) = 0%nat.
Proof.
  intros Hs Hi. pose proof (history_no_will calls d Hs Hi) as H.
  split; [done|]. unfold count. by rewrite filter_no_will.
Qed.

Lemma later_instance_never_registers_will_witness :
  Forall not_set_will
    (history [Mqtt_on_connection morning true; Mqtt_on_connection noon false;
              Start plain_timers 995 noon {| instance_count := 2; repeating_timer := None |};
              Mqtt_on_connection noon true] pump).
Proof. apply later_instance_never_registers_will; reflexivity. Defined.

(** X17.  The constructor takes an instance number even when it fails.
    So once any construction has been attempted, successfully or not, a
    device constructed on a shared transport is not instance 1 and never
    registers a last will; in particular none is ever registered on a
    shared transport when the first construction of the process failed. *)
Theorem instance_number_taken_on_failure (env : Env) (g : Globals)
    (device_id given_name : option string) (settings : option (gmap string pyval))
    (client : Transport) (exts : list string) :
  instance_count (__init__ env g device_id given_name settings client exts).1
    = instance_count g + 1 ∧
  (∀ d, (__init__ env g device_id given_name settings client exts).2 = Return d →
     instance_number d = instance_count g + 1 ∧ mqtt_client d = client) ∧
  (∀ d calls,
     1 ≤ instance_count g → using_shared_mqtt_client client = true →
     (__init__ env g device_id given_name settings client exts).2 = Return d →
     Forall not_set_will (history calls d)).
Proof.
  assert (∀ d, (__init__ env g device_id given_name settings client exts).2 = Return d →
               instance_number d = instance_count g + 1 ∧ mqtt_client d = client) as H.
  { intros d. cbn.
    destruct (validate_id _); [|done]. destruct (truthy _); [|done].
    destruct (forallb _ _); [|done]. cbn.
    destruct (_ !! "topic") as [[]|]; try done. by intros [= <-]. }
  split; [done|]. split; [exact H|].
  intros d calls Hg Hs [Hi Hm]%H. apply history_no_will.
  - by rewrite Hm.
  - rewrite Hi. apply Z.eqb_neq. lia.
Qed.

Lemma instance_number_taken_on_failure_witness :
  let failed := __init__ linux {| instance_count := 0; repeating_timer := None |}
                         (Some "porch-light") None None shared_client [] in
  failed.2 = Raise AssertionError ∧
  ∃ d, (__init__ linux failed.1 (Some "porch-light") (Some "Sensor") None
                 shared_client []).2 = Return d ∧
       Forall not_set_will (history [Mqtt_on_connection morning true] d).
Proof.
  split; [reflexivity|]. eexists. split; [reflexivity|].
  eapply (instance_number_taken_on_failure linux
            (__init__ linux {| instance_count := 0; repeating_timer := None |}
                      (Some "porch-light") None None shared_client []).1
            (Some "porch-light") (Some "Sensor") None shared_client []);
    [cbn; lia | reflexivity | reflexivity].
Defined.

(** ** The node registry *)

Section dict.
Context {V : Type}.
Implicit Types (items : list (string * V)) (key : string).

Lemma dict_get_set_eq key (v : V) items : dict_get key (dict_set key v items) = Some v.
Proof.
  induction items as [|[k v'] items IH]; cbn.
  - by rewrite decide_True.
  - destruct (decide (k = key)) as [->|Hne]; cbn.
    + by rewrite decide_True.
    + by rewrite decide_False.
Qed.

Lemma dict_get_set_ne key other (v : V) items :
  other ≠ key → dict_get other (dict_set key v items) = dict_get other items.
Proof.
  intros Hne. induction items as [|[k v'] items IH]; cbn.
  - by rewrite decide_False.
  - destruct (decide (k = key)) as [->|Hk]; cbn.
    + by rewrite !decide_False.
    + by rewrite IH.
Qed.

Lemma dict_get_None key items : dict_get key items = None ↔ key ∉ items.*1.
Proof.
  induction items as [|[k v] items IH]; cbn.
  - split; [intros _; apply not_elem_of_nil | done].
  - rewrite not_elem_of_cons. destruct (decide (k = key)) as [->|Hk].
    + split; [done | by intros [? _]].
    + rewrite IH. split; [by intros ?; split | by intros [_ ?]].
Qed.

Lemma dict_set_keys key (v : V) items :
  (dict_set key v items).*1 =
  if decide (key ∈ items.*1) then items.*1 else items.*1 ++ [key].
Proof.
  induction items as [|[k v'] items IH]; cbn.
  - rewrite decide_False; [done | apply not_elem_of_nil].
  - destruct (decide (k = key)) as [->|Hk]; cbn.
    + rewrite decide_True; [done | left].
    + rewrite IH. destruct (decide (key ∈ items.*1)) as [Hin|Hin].
      * rewrite decide_True; [done | by right].
      * rewrite decide_False; [done|]. rewrite not_elem_of_cons. by split.
Qed.

Lemma dict_del_keys_subset key other items :
  other ∈ (dict_del key items).*1 → other ∈ items.*1.
Proof.
  induction items as [|[k v] items IH]; cbn; [done|].
  destruct (decide (k = key)); cbn.
  - by right.
  - intros [->|Hin]%elem_of_cons; [left | right; by apply IH].
Qed.

Lemma dict_set_NoDup key (v : V) items : NoDup items.*1 → NoDup (dict_set key v items).*1.
Proof.
  intros H. rewrite dict_set_keys. destruct (decide _) as [|Hin]; [done|].
  apply NoDup_app. repeat split; [done | | apply NoDup_singleton].
  intros x Hx ->%list_elem_of_singleton. done.
Qed.

Lemma dict_del_NoDup key items : NoDup items.*1 → NoDup (dict_del key items).*1.
Proof.
  induction items as [|[k v] items IH]; cbn; [done|].
  intros [Hk H]%NoDup_cons. destruct (decide (k = key)); cbn; [done|].
  apply NoDup_cons. split; [|by apply IH].
  intros Hin. by apply Hk, (dict_del_keys_subset key).
Qed.

Lemma dict_get_del_eq key items :
  NoDup items.*1 → dict_get key (dict_del key items) = None.
Proof.
  induction items as [|[k v] items IH]; cbn; [done|].
  intros [Hk H]%NoDup_cons. destruct (decide (k = key)) as [->|Hne]; cbn.
  - by apply dict_get_None.
  - rewrite decide_False by done. by apply IH.
Qed.

Lemma dict_get_del_ne key other items :
  other ≠ key → dict_get other (dict_del key items) = dict_get other items.
Proof.
  intros Hne. induction items as [|[k v] items IH]; cbn; [done|].
  destruct (decide (k = key)) as [->|Hk]; cbn.
  - by rewrite decide_False.
  - by rewrite IH.
Qed.

End dict.

Lemma add_node_run node_id node d :
  add_node node_id node d =
  if nodes_published d
  then Result (Publish (join "/" [topic d; "$nodes"])
                       (PStr (join "," (dict_set node_id node (nodes d)).*1))
                       (retained d) (qos d)
                 :: node_events (retained d) (qos d) (dict_set node_id node (nodes d)))
              (set_nodes (dict_set node_id node (nodes d)) d) (Return tt)
  else Result [] (set_nodes (dict_set node_id node (nodes d)) d) (Return tt).
Proof.
  unfold add_node. rewrite bind_attr; cbv beta delta [id]. rewrite bind_assign, bind_attr.
  cbv beta delta [id]. cbn [nodes_published retained qos set_nodes].
  destruct (nodes_published d) eqn:E; [|done].
  rewrite publish_nodes_run. cbn [topic nodes set_nodes]. f_equal.
  destruct d. cbn in *. by subst.
Qed.

(** X18.  [add_node] never raises, and [get_node] finds what it put: the
    node added last under an id is the one returned for it, the other ids
    give what they gave before, and an id that was never added gives
    [None], without exception. *)
Theorem node_added_then_found (node_id other : string) (node : Node) (d : Device) :
  out (add_node node_id node d) = Return tt ∧
  get_node node_id (self (add_node node_id node d)) =
    Result [] (self (add_node node_id node d)) (Return (Some node)) ∧
  (other ≠ node_id →
     out (get_node other (self (add_node node_id node d))) = out (get_node other d)) ∧
  (other ∉ (nodes d).*1 → get_node other d = Result [] d (Return None)).
Proof.
  unfold get_node. rewrite !bind_attr. cbv beta delta [id]. rewrite add_node_run.
  assert (nodes (self (if nodes_published d
            then Result (Publish (join "/" [topic d; "$nodes"])
                           (PStr (join "," (dict_set node_id node (nodes d)).*1))
                           (retained d) (qos d)
                         :: node_events (retained d) (qos d)
                              (dict_set node_id node (nodes d)))
                        (set_nodes (dict_set node_id node (nodes d)) d) (Return tt)
            else Result [] (set_nodes (dict_set node_id node (nodes d)) d) (Return tt)))
          = dict_set node_id node (nodes d)) as E by (by destruct (nodes_published d)).
  repeat split.
  - by destruct (nodes_published d).
  - unfold ret. by rewrite E, dict_get_set_eq.
  - intros Hne. unfold ret. cbn [out]. by rewrite E, dict_get_set_ne.
  - intros Hin%dict_get_None. unfold ret. by rewrite Hin.
Qed.

Lemma node_added_then_found_witness :
  out (get_node "lamp" (self (add_node "fan" lamp (self (add_node "lamp" lamp kitchen))))) =
    Return (Some lamp) ∧
  get_node "heater" kitchen = Result [] kitchen (Return None).
Proof.
  destruct (node_added_then_found "fan" "lamp" lamp (self (add_node "lamp" lamp kitchen)))
    as (_ & _ & H & _).
  split.
  - rewrite H; [|discriminate].
    destruct (node_added_then_found "lamp" "lamp" lamp kitchen) as (_ & -> & _).
    reflexivity.
  - apply (node_added_then_found "lamp" "heater" lamp kitchen). apply not_elem_of_nil.
Defined.

(** X19.  [add_node] publishes only once the nodes have been published:
    before, it makes no call; after, it republishes [$nodes], the
    comma-joined ids in registry order, and then the attributes of every
    node, with the device's default retain and qos.  An id that is already
    registered keeps its place in that order, a new one goes last. *)
Theorem add_node_republishes (node_id : string) (node : Node) (d : Device) :
  (nodes_published d = false →
     add_node node_id node d =
       Result [] (set_nodes (dict_set node_id node (nodes d)) d) (Return tt)) ∧
  (nodes_published d = true →
     add_node node_id node d =
       Result (Publish (join "/" [topic d; "$nodes"])
                       (PStr (join "," (dict_set node_id node (nodes d)).*1))
                       (retained d) (qos d)
                 :: node_events (retained d) (qos d) (dict_set node_id node (nodes d)))
              (set_nodes (dict_set node_id node (nodes d)) d) (Return tt)) ∧
  (dict_set node_id node (nodes d)).*1 =
    (if decide (node_id ∈ (nodes d).*1) then (nodes d).*1 else (nodes d).*1 ++ [node_id]).
Proof.
  rewrite add_node_run. repeat split.
  - by intros ->.
  - by intros ->.
  - apply dict_set_keys.
Qed.

Lemma add_node_republishes_witness :
  trace (add_node "lamp" lamp kitchen) = [] ∧
  trace (add_node "lamp" lamp (set_nodes_published true kitchen)) =
    [ Publish "homie/kitchen-sensor/$nodes" (PStr "lamp") true 1;
      Publish "homie/kitchen-sensor/lamp/$name" (PStr "Lamp") true 1 ].
Proof.
  split.
  - destruct (add_node_republishes "lamp" lamp kitchen) as [-> _]; reflexivity.
  - destruct (add_node_republishes "lamp" lamp (set_nodes_published true kitchen))
      as (_ & -> & _); reflexivity.
Defined.

(** X20.  [remove_node] for an id that is not registered raises KeyError
    before anything is published or changed.  For a registered id it
    returns; the node is no longer found and the others are; and when the
    nodes have been published it republishes, not retained and at qos 1,
    [$nodes] and the attributes of the nodes that remain, and nothing for
    the node removed. *)
Theorem remove_node_retracts (node_id : string) (d : Device) :
  (node_id ∉ (nodes d).*1 →
     remove_node node_id d = Result [] d (Raise (KeyError node_id))) ∧
  (node_id ∈ (nodes d).*1 → NoDup (nodes d).*1 →
     out (remove_node node_id d) = Return tt ∧
     nodes (self (remove_node node_id d)) = dict_del node_id (nodes d) ∧
     out (get_node node_id (self (remove_node node_id d))) = Return None ∧
     (∀ other, other ≠ node_id →
        out (get_node other (self (remove_node node_id d))) = out (get_node other d)) ∧
     trace (remove_node node_id d) =
       (if nodes_published d
        then Publish (join "/" [topic d; "$nodes"])
                     (PStr (join "," (dict_del node_id (nodes d)).*1)) false 1
               :: node_events false 1 (dict_del node_id (nodes d))
        else [])).
Proof.
  split.
  - intros Hin%dict_get_None. unfold remove_node.
    rewrite bind_attr; cbv beta delta [id]. by rewrite Hin.
  - intros Hin Hnd.
    assert (∃ node, dict_get node_id (nodes d) = Some node) as [node Hget].
    { destruct (dict_get node_id (nodes d)) eqn:E; [by eexists|].
      by apply dict_get_None in E. }
    assert (remove_node node_id d =
            if nodes_published d
            then Result (Publish (join "/" [topic d; "$nodes"])
                           (PStr (join "," (dict_del node_id (nodes d)).*1)) false 1
                         :: node_events false 1 (dict_del node_id (nodes d)))
                        (set_nodes_published true (set_nodes (dict_del node_id (nodes d)) d))
                        (Return tt)
            else Result [] (set_nodes (dict_del node_id (nodes d)) d) (Return tt)) as ->.
    { unfold remove_node. rewrite bind_attr; cbv beta delta [id]. rewrite Hget.
      rewrite bind_assign, bind_attr. cbv beta delta [id].
      cbn [nodes_published set_nodes]. destruct (nodes_published d); [|done].
      by rewrite publish_nodes_run. }
    unfold get_node. repeat split.
    + by destruct (nodes_published d).
    + by destruct (nodes_published d).
    + rewrite bind_attr. cbv beta delta [id]. unfold ret. cbn [out].
      destruct (nodes_published d); cbn [self nodes set_nodes set_nodes_published];
        by rewrite dict_get_del_eq.
    + intros other Hne. rewrite !bind_attr. cbv beta delta [id]. unfold ret. cbn [out].
      destruct (nodes_published d); cbn [self nodes set_nodes set_nodes_published];
        by rewrite dict_get_del_ne.
    + by destruct (nodes_published d).
Qed.

Lemma remove_node_retracts_witness :
  remove_node "lamp" kitchen = Result [] kitchen (Raise (KeyError "lamp")) ∧
  trace (remove_node "lamp" (self (add_node "lamp" lamp (set_nodes_published true kitchen))))
    = [ Publish "homie/kitchen-sensor/$nodes" (PStr "") false 1 ].
Proof.
  split.
  - apply remove_node_retracts. apply not_elem_of_nil.
  - destruct (remove_node_retracts "lamp"
                (self (add_node "lamp" lamp (set_nodes_published true kitchen))))
      as [_ H].
    destruct H as (_ & _ & _ & _ & ->); [cbn; left | cbn; repeat constructor; set_solver |].
    reflexivity.
Defined.

(** X21.  The ids of the registry stay distinct through any sequence of
    calls, as the keys of the dict they stand for. *)
Theorem node_ids_distinct (calls : list call) (d : Device) :
  NoDup (nodes d).*1 → NoDup (nodes (after calls d)).*1.
Proof.
  apply (after_preserves (λ d', NoDup (nodes d').*1)); try done.
  - intros key node d' H. by apply dict_set_NoDup.
  - intros key d' H. by apply dict_del_NoDup.
Qed.

Lemma node_ids_distinct_witness :
  NoDup (nodes (after [Add_node "lamp" lamp; Add_node "fan" lamp; Add_node "lamp" lamp;
                       Remove_node "fan"] kitchen)).*1.
Proof. apply node_ids_distinct. apply NoDup_nil_2. Defined.

(** ** Connecting again *)




(** ** Default device ids *)

(** The decimal text of a number has no leading zero, unless it is "0". *)
Definition canonical (s : string) : Prop :=
  s = "0" ∨ ∃ c rest, s = String c rest ∧ c ≠ "0"%char.

Lemma pretty_N_go_leading (x : N) (s : string) :
  (0 < x)%N → ∃ c rest, pretty_N_go x s = String c rest ∧ c ≠ "0"%char.
Proof.
  revert s. induction (N.lt_wf_0 x) as [x _ IH]; intros s Hx.
  rewrite pretty_N_go_step by done.
  destruct (N.eq_0_gt_0_cases (x `div` 10)) as [E|Hpos].
  - rewrite E, pretty_N_go_0. eexists _, _. split; [done|].
    assert (x < 10)%N by (by apply N.div_small_iff in E).
    rewrite N.mod_small by done.
    assert (x = 1 ∨ x = 2 ∨ x = 3 ∨ x = 4 ∨ x = 5 ∨ x = 6 ∨ x = 7 ∨ x = 8 ∨ x = 9)%N
      as Hcases by lia.
    by repeat destruct Hcases as [->|Hcases]; [..|subst].
  - apply IH; [|done]. by apply N.div_lt.
Qed.

Lemma pretty_canonical (n : Z) : 0 ≤ n → canonical (pretty n).
Proof.
  destruct n as [|p|p]; [by left| |lia]. intros _. right.
  unfold pretty, pretty_Z, pretty, pretty_positive, pretty, pretty_N.
  rewrite decide_False by done. by apply pretty_N_go_leading.
Qed.

Lemma zeros_succ (k : nat) :
  String.concat "" (replicate (S k) "0") = String "0" (String.concat "" (replicate k "0")).
Proof. by destruct k. Qed.

Lemma append_empty_l (s : string) : "" +:+ s = s.
Proof. done. Qed.

Lemma append_cons c (s t : string) : String c s +:+ t = String c (s +:+ t).
Proof. done. Qed.

Lemma padded_inj (a b : nat) (s s' : string) :
  canonical s → canonical s' →
  String.concat "" (replicate a "0") +:+ s = String.concat "" (replicate b "0") +:+ s' →
  s = s'.
Proof.
  intros Hs Hs'. revert b. induction a as [|a IH]; intros [|b]; rewrite ?zeros_succ;
    intros E; rewrite ?append_empty_l, ?append_cons in E.
  - done.
  - subst s. destruct Hs as [[= E]|(c & rest & [= <- <-] & Hc)]; [|done].
    destruct (String.concat "" (replicate b "0")), s', Hs' as [?|(? & ? & ? & ?)]; done.
  - subst s'. destruct Hs' as [[= E]|(c & rest & [= <- <-] & Hc)]; [|done].
    destruct (String.concat "" (replicate a "0")), s, Hs as [?|(? & ? & ? & ?)]; done.
  - injection E as E. by apply (IH b).
Qed.

(** X23.  The default ids of different instances differ: for instance
    numbers that are not negative, [generate_device_id] gives different
    ids for different numbers, also beyond the four digits it pads to. *)
Theorem default_ids_differ (n m : Z) :
  0 ≤ n → 0 ≤ m → n ≠ m → generate_device_id n ≠ generate_device_id m.
Proof.
  intros Hn Hm Hne E. apply Hne. unfold generate_device_id in E.
  apply append_inj_l in E. unfold format_04d in E.
  rewrite !(proj2 (Z.ltb_ge _ 0)) in E by done.
  unfold zfill in E. apply padded_inj in E; [|by apply pretty_canonical..].
  by apply (inj pretty).
Qed.

Lemma default_ids_differ_witness :
  generate_device_id 7 = "device0007" ∧ generate_device_id 12345 = "device12345" ∧
  generate_device_id 1234 ≠ generate_device_id 12345.
Proof.
  split; [reflexivity|]. split; [reflexivity|].
  apply default_ids_differ; lia.
Defined.

(** ** Nodes and firmware on the wire, and constructed devices *)

(** X24.  [publish_nodes] never raises.  It publishes [$nodes], the
    comma-joined ids in registry order, then what each node publishes for
    its attributes, node by node in that order, handing each node the same
    retain and qos; it sets the published latch and changes nothing else.
    With no node registered it publishes the empty string. *)
Theorem publish_nodes_in_order (retain : bool) (qos : Z) (d : Device) :
  publish_nodes retain qos d =
    Result (Publish (join "/" [topic d; "$nodes"]) (PStr (join "," (nodes d).*1)) retain qos
              :: concat ((λ entry, publication_event <$>
                                     node_publish_attributes entry.2 retain qos)
                         <$> nodes d))
           (set_nodes_published true d) (Return tt) ∧
  (nodes d = [] →
     trace (publish_nodes retain qos d) =
       [Publish (join "/" [topic d; "$nodes"]) (PStr "") retain qos]).
Proof.
  rewrite publish_nodes_run. split.
  - do 2 f_equal. unfold node_events. induction (nodes d) as [|e ns IH]; [done|].
    cbn. by rewrite IH.
  - by intros ->.
Qed.

Lemma publish_nodes_in_order_witness :
  trace (publish_nodes true 1 kitchen) =
    [Publish "homie/kitchen-sensor/$nodes" (PStr "") true 1].
Proof. apply publish_nodes_in_order. reflexivity. Defined.

(** X25.  On a constructed device [publish_firmware] never raises: it
    publishes [$localip] and [$mac] as the transport reports them, then
    [$fw/name], [$fw/version] and [$implementation] from the settings, in
    that order.  Its [$implementation] is the one [publish_attributes]
    publishes too: when a device that declares firmware, and has been
    started if it declares stats, publishes its attributes,
    [$implementation] goes out exactly twice, with the same payload. *)
Theorem firmware_attributes (clk : Clock) (retain : bool) (qos : Z) (d : Device) :
  configured d = true →
  ∃ fw_name fw_version implementation,
    homie_settings d !! "fw_name" = Some fw_name ∧
    homie_settings d !! "fw_version" = Some fw_version ∧
    homie_settings d !! "implementation" = Some implementation ∧
    publish_firmware retain qos d =
      Result [ Publish (join "/" [topic d; "$localip"])
                       (get_mac_ip_address (mqtt_client d)).2 retain qos;
               Publish (join "/" [topic d; "$mac"])
                       (get_mac_ip_address (mqtt_client d)).1 retain qos;
               Publish (join "/" [topic d; "$fw/name"]) fw_name retain qos;
               Publish (join "/" [topic d; "$fw/version"]) fw_version retain qos;
               Publish (join "/" [topic d; "$implementation"]) implementation retain qos ]
             d (Return tt) ∧
    (can_report d = true → "firmware" ∈ extensions d →
       List.filter (is_publish_to (join "/" [topic d; "$implementation"]))
                   (trace (publish_attributes clk true 1 d)) =
         [ Publish (join "/" [topic d; "$implementation"]) implementation true 1;
           Publish (join "/" [topic d; "$implementation"]) implementation true 1 ]).
Proof.
  intros Hc.
  destruct (publish_firmware_configured retain qos d Hc) as (n & v & i & Hn & Hv & Hi & E).
  exists n, v, i. repeat split; try done.
  intros Hr Hf.
  destruct (publish_attributes_run clk d Hc Hr) as (v' & i' & _ & Hi' & ->).
  assert (i' = i) as -> by congruence.
  rewrite (publish_extensions_run clk true 1 d Hc Hr). cbn [trace].
  destruct (publish_firmware_configured true 1 d Hc) as (n2 & v2 & i2 & _ & _ & Hi2 & ->).
  assert (i2 = i) as -> by congruence.
  rewrite (bool_decide_eq_true_2 _ Hf). cbn [trace].
  assert (List.filter (is_publish_to (join "/" [topic d; "$implementation"]))
            (if bool_decide ("stats" ∈ extensions d)
             then trace (publish_statastics clk true 1 d) else []) = []) as Hstats.
  { case_bool_decide as Hs; [|done].
    destruct (configured_lookup d "update_interval" Hc) as [u Hu]; [set_solver|].
    destruct (can_report_started d Hr Hs) as [t0 Ht0].
    rewrite (publish_statastics_started clk true 1 d u t0 Hu Ht0). cbn.
    by repeat (rewrite is_publish_to_other by done; cbn). }
  cbn [app]. cbn [List.filter].
  rewrite !List.filter_app, Hstats.
  destruct (bool_decide (join "," (extensions d) ≠ "")); cbn [List.filter app];
    rewrite !is_publish_to_same; by repeat (rewrite is_publish_to_other by done).
Qed.

Lemma firmware_attributes_witness :
  List.filter (is_publish_to "homie/kitchen-sensor/$implementation")
    (trace (publish_attributes morning true 1
              (sample 1 "kitchen-sensor" own_client ["stats"; "firmware"] (Some 990%float)))) =
  [ Publish "homie/kitchen-sensor/$implementation" (PStr "linux") true 1;
    Publish "homie/kitchen-sensor/$implementation" (PStr "linux") true 1 ].
Proof.
  destruct (firmware_attributes morning true 1
              (sample 1 "kitchen-sensor" own_client ["stats"; "firmware"] (Some 990%float)))
    as (n & v & i & _ & _ & Hi & _ & H); [reflexivity|].
  vm_compute in Hi. injection Hi as <-.
  apply H; [reflexivity|]. cbn. right. left.
Defined.

(** X26.  A device the constructor returned stays well formed through
    anything it is asked to do: after any sequence of calls every known
    setting is still there, the extensions are still supported ones, the
    topic is still the topic root of the settings joined with the device
    id, the state is one of the enumeration and the node ids are
    distinct. *)
Theorem constructed_stays_well_formed (env : Env) (g : Globals)
    (given_id given_name : option string) (settings : option (gmap string pyval))
    (client : Transport) (exts : list string) (d : Device) (calls : list call) :
  (__init__ env g given_id given_name settings client exts).2 = Return d →
  configured (after calls d) = true ∧
  supported (after calls d) = true ∧
  (∃ root, homie_settings (after calls d) !! "topic" = Some (PStr root) ∧
           topic (after calls d) = join "/" [root; device_id (after calls d)]) ∧
  py_in (_state (after calls d)) DEVICE_STATES = true ∧
  NoDup (nodes (after calls d)).*1.
Proof.
  intros H.
  assert (configured d = true ∧ supported d = true ∧
          (∃ root, homie_settings d !! "topic" = Some (PStr root) ∧
                   topic d = join "/" [root; device_id d]) ∧
          _state d = PStr "init" ∧ nodes d = []) as (Hc & Hs & (root & Hroot & Ht) & Hst & Hn).
  { cbn in H. destruct (validate_id _); [|done]. destruct (truthy _); [|done].
    destruct (forallb _ exts) eqn:Hexts; [|done]. cbn in H.
    destruct (_homie_validate_settings env settings !! "topic") as [[| | | |root]|] eqn:E;
      try done.
    injection H as <-. cbn. repeat split; try done.
    - unfold configured. cbn.
      by rewrite !bool_decide_eq_true_2 by (apply validated_configured; set_solver).
    - by exists root. }
  assert (constants (after calls d) = constants d) as [= _ Hid _ He Hset Htop _ _ _]
    by (by apply (after_preserves (λ d', constants d' = constants d))).
  repeat split.
  - unfold configured. by rewrite Hset.
  - unfold supported. by rewrite He.
  - exists root. by rewrite Hset, Htop, Hid.
  - apply (after_preserves (λ d', py_in (_state d') DEVICE_STATES = true)); try done.
    by rewrite Hst.
  - apply (after_preserves (λ d', NoDup (nodes d').*1)); try done.
    + intros key node d' Hd. by apply dict_set_NoDup.
    + intros key d' Hd. by apply dict_del_NoDup.
    + rewrite Hn. apply NoDup_nil_2.
Qed.

Lemma constructed_stays_well_formed_witness :
  configured (after [Mqtt_on_connection morning true; Add_node "lamp" lamp;
                     Assign_state (PStr "asleep")] (set_start_time None kitchen)) = true.
Proof.
  eapply (constructed_stays_well_formed linux {| instance_count := 0; repeating_timer := None |}
            (Some "kitchen-sensor") (Some "Sensor") None own_client ["stats"]).
  reflexivity.
Defined.
